(** * Token-holder revenue distribution lambda: model of [main.go]

    The handler [HandleEvent] reads the vault balance, keeps a fee reserve,
    sends one third of the rest to the token-holder contract and two thirds
    to a second address, then calls [SellVouchers] and [BuyVouchers]; after
    every submission it waits for the receipt with [waitForTx].

    The chain client, the contract binding, the configuration package and the
    crypto helpers are collaborators: they are fields of the records
    [Backend] and [Libs], and every statement below is quantified over them.
    Calls that reach a collaborator are recorded, in order, in a trace of
    [event]s, together with what the collaborator answered. *)

From Stdlib Require Import ZArith List String Ascii Bool Lia.
Import ListNotations.
Local Open Scope Z_scope.

(** ** Errors and formatting *)

(** Go [error] values.  [NotFound] is the sentinel [ethereum.NotFound], which
    the code compares by identity; [Canceled] and [DeadlineExceeded] are the
    two values of [ctx.Err()]; [ErrorString] is what [errors.New] and
    [fmt.Errorf] build. *)
Inductive error : Type :=
| NotFound
| Canceled
| DeadlineExceeded
| ErrorString (msg : string).

Definition Error (e : error) : string :=
  match e with
  | NotFound => "not found"
  | Canceled => "context canceled"
  | DeadlineExceeded => "context deadline exceeded"
  | ErrorString msg => msg
  end.

(** [err == ethereum.NotFound] *)
Definition is_NotFound (e : error) : bool :=
  match e with NotFound => true | _ => false end.

Module fmt.

(** [fmt.Sprintf] for the verbs the program uses, [%s], [%x] and [%+v]; the
    operands are given already rendered. *)
Fixpoint Sprintf (format : string) (a : list string) : string :=
  match format with
  | EmptyString => EmptyString
  | String "%" (String "s" rest) =>
      match a with
      | x :: a' => String.append x (Sprintf rest a')
      | [] => String.append "%!s(MISSING)" (Sprintf rest [])
      end
  | String "%" (String "x" rest) =>
      match a with
      | x :: a' => String.append x (Sprintf rest a')
      | [] => String.append "%!x(MISSING)" (Sprintf rest [])
      end
  | String "%" (String "+" (String "v" rest)) =>
      match a with
      | x :: a' => String.append x (Sprintf rest a')
      | [] => String.append "%!v(MISSING)" (Sprintf rest [])
      end
  | String c rest => String c (Sprintf rest a)
  end.

Definition Errorf (format : string) (a : list string) : error :=
  ErrorString (Sprintf format a).

End fmt.

(** [formatError] returns [("", fmt.Errorf(format, a...))]; a Go pair
    [(T, error)] is a sum here. *)
Definition formatError {A : Type} (format : string) (a : list string)
  : error + A :=
  inl (fmt.Errorf format a).

(** ** Integers *)

(** [int64] arithmetic wraps around. *)
Definition wrap_int64 (z : Z) : Z := (z + 2 ^ 63) mod 2 ^ 64 - 2 ^ 63.

Definition uint64 (z : Z) : Z := z mod 2 ^ 64.

Module big.

(** [math/big]: integers of any size.  [Div] is Euclidean division (the
    remainder is never negative); Go panics on a zero divisor, which the
    program never passes ([int3] is the only divisor). *)
Definition NewInt (x : Z) : Z := x.
Definition Sub (x y : Z) : Z := x - y.
Definition Mul (x y : Z) : Z := x * y.
Definition Div (x y : Z) : Z := Z.sgn y * (x / Z.abs y).
Definition Cmp (x y : Z) : Z :=
  match x ?= y with Lt => -1 | Eq => 0 | Gt => 1 end.

End big.

Definition int2 : Z := big.NewInt 2.
Definition int3 : Z := big.NewInt 3.
Definition gasLimit : Z := 21000.

(** ** Data *)

Definition Address := Z.   (* common.Address, 20 bytes *)
Definition Hash := Z.      (* common.Hash, 32 bytes *)
Definition Timestamp := Z. (* time.Time *)

Record PrivateKey := { PublicKey : Z * Z; D : Z }.

(** [bind.TransactOpts]; [nil] big integers are [None]. *)
Record TransactOpts := {
  From : Address;
  Value : option Z;
  GasPrice : option Z;
  GasLimit : Z
}.

(** The fields of a receipt; the program reads [Status] only. *)
Record Receipt := {
  Status : Z;
  TxHash : Hash;
  GasUsed : Z
}.

Record CloudWatchEvent := { Time : Timestamp }.

Module config.
(** The package variables [config.Parse] fills in. *)
Record t := {
  EthereumJSONRPCURL : string;
  deqodeVaultPrivateKey : string;
  TokenHolderProcessingKey : string;
  deqodeAddress : string;
  TokenHolderContractAddress : string
}.
End config.

(** [context.Context]: the instant at which [Done()] is closed, if any, and
    what [Err()] reports from then on. *)
Record Context := {
  done_at : option Z;
  ctx_err : error
}.

(** Pure helpers of the libraries, the constant
    [types.ReceiptStatusSuccessful], and the choice [select] makes when both
    of its cases become ready at the same instant. *)
Record Libs := {
  HexToECDSA : string -> error + PrivateKey;
  HexToAddress : string -> Address;
  PubkeyToAddress : Z * Z -> Address;
  Hash_Hex : Hash -> string;
  Address_String : Address -> string;
  Time_String : Timestamp -> string;
  Receipt_String : Receipt -> string;
  ReceiptStatusSuccessful : Z;
  select_tie : Z -> bool
}.

(** The chain client, the contract binding and the configuration package, as
    transitions of a world [W].  [Commit] is present when the backend has a
    [Commit()] method (the type assertion in [waitForTx]); [Elapse d] is what
    the world does while the program sleeps for [d] time units. *)
Record Backend (W : Type) := {
  config_Parse : W -> (error + config.t) * W;
  ethclient_Dial : string -> W -> option error * W;
  SuggestGasPrice : Context -> W -> (error + Z) * W;
  BalanceAt : Context -> Address -> W -> (error + Z) * W;
  Transfer : TransactOpts -> Address -> W -> (error + Hash) * W;
  NewdeqodeTokenHolderProgramContract : Address -> W -> option error * W;
  SellVouchers : TransactOpts -> W -> (error + Hash) * W;
  BuyVouchers : TransactOpts -> W -> (error + Hash) * W;
  TransactionReceipt : Context -> Hash -> W -> (error + Receipt) * W;
  Commit : option (W -> W);
  Elapse : Z -> W -> W
}.

Arguments config_Parse {W}.
Arguments ethclient_Dial {W}.
Arguments SuggestGasPrice {W}.
Arguments BalanceAt {W}.
Arguments Transfer {W}.
Arguments NewdeqodeTokenHolderProgramContract {W}.
Arguments SellVouchers {W}.
Arguments BuyVouchers {W}.
Arguments TransactionReceipt {W}.
Arguments Commit {W}.
Arguments Elapse {W}.

(** ** Traces *)

(** One entry per call that leaves the program, with the answer it got.
    [EvReceipt t] is a receipt query issued at instant [t]; [EvAfter t t'] is
    a [select] that took the timer case, entered at [t] and left at [t'];
    [EvDone t t'] is one that took the [ctx.Done()] case. *)
Inductive event : Type :=
| EvParse (r : error + config.t)
| EvDial (url : string) (r : option error)
| EvSuggestGasPrice (r : error + Z)
| EvBalanceAt (a : Address) (r : error + Z)
| EvTransfer (opts : TransactOpts) (to : Address) (r : error + Hash)
| EvNewContract (a : Address) (r : option error)
| EvSellVouchers (opts : TransactOpts) (r : error + Hash)
| EvBuyVouchers (opts : TransactOpts) (r : error + Hash)
| EvCommit
| EvReceipt (t : Z) (h : Hash) (r : error + Receipt)
| EvAfter (t t' : Z)
| EvDone (t t' : Z).

(** ** The monad: world, clock, trace, and fuel for the polling loop *)

(** The clock [now] counts time units (seconds in the source).  It advances
    only while the program is blocked in the [select] of [waitForTx]; calls
    to collaborators are instantaneous.  The [log.Printf] of [waitForTx] is
    left out. *)

Record St (W : Type) := { world : W; now : Z }.
Arguments world {W}.
Arguments now {W}.

(** [None] is a run whose fuel ran out inside [waitForTx]'s loop. *)
Definition M (W A : Type) : Type := St W -> option A * St W * list event.

Definition ret {W A} (a : A) : M W A := fun st => (Some a, st, []).

Definition bind {W A B} (m : M W A) (f : A -> M W B) : M W B := fun st =>
  match m st with
  | (Some a, st1, t1) =>
      match f a st1 with (r, st2, t2) => (r, st2, t1 ++ t2) end
  | (None, st1, t1) => (None, st1, t1)
  end.

Definition out_of_fuel {W A} : M W A := fun st => (None, st, []).

(** A collaborator call: run the transition, record the event. *)
Definition call {W A} (f : W -> A * W) (ev : A -> event) : M W A := fun st =>
  match f (world st) with
  | (a, w') => (Some a, {| world := w'; now := now st |}, [ev a])
  end.

Declare Scope go_scope.
Delimit Scope go_scope with go.

Notation "x <- c ;; k" := (bind c (fun x => k))
  (at level 61, c at next level, right associativity) : go_scope.

(** [x, err := c; if err != nil { return h }; k] *)
Notation "x <- c 'orelse' err => h ;; k" :=
  (bind c (fun r => match r with inl err => ret h | inr x => k end))
  (at level 61, c at next level, err name, h at next level,
   right associativity) : go_scope.

(** [err := c; if err != nil { return h }; k] *)
Notation "'check' c 'orelse' err => h ;; k" :=
  (bind c (fun r => match r with Some err => ret h | None => k end))
  (at level 61, c at next level, err name, h at next level,
   right associativity) : go_scope.

(** ** The program *)

Section Program.

Context {W : Type}.
Variable backend : Backend W.
Variable libs : Libs.

Local Open Scope string_scope.
Local Open Scope Z_scope.
Local Open Scope go_scope.

(** [bind.NewKeyedTransactor(key)] *)
Definition NewKeyedTransactor (key : PrivateKey) : TransactOpts :=
  {| From := PubkeyToAddress libs (PublicKey key);
     Value := None; GasPrice := None; GasLimit := 0 |}.

(** [select { case <-ctx.Done(): ...; case <-time.After(d): }], entered at
    instant [now].  If the context is done before the timer expires (or was
    done already) the first case runs, at that instant; if the timer expires
    first the second runs; when both happen at the same instant the runtime
    picks.  The result is [Some (ctx.Err())] for the first case. *)
Definition select_Done_After (ctx : Context) (d : Z) : M W (option error) :=
  fun st =>
    let t := now st in
    let done_first :=
      match done_at ctx with
      | Some c => (c <? t + d) || ((c =? t + d) && select_tie libs c)
      | None => false
      end in
    if done_first then
      let t' := Z.max t (match done_at ctx with Some c => c | None => t end) in
      (Some (Some (ctx_err ctx)),
       {| world := Elapse backend (t' - t) (world st); now := t' |},
       [EvDone t t'])
    else
      (Some None,
       {| world := Elapse backend d (world st); now := t + d |},
       [EvAfter t (t + d)]).

(** [backend.TransactionReceipt(ctx, txHash)] *)
Definition receipt (ctx : Context) (txHash : Hash)
  : M W (error + Receipt) :=
  fun st => call (TransactionReceipt backend ctx txHash)
                 (EvReceipt (now st) txHash) st.

(** What [waitForTx] does with the answer to a receipt query that did not
    report [ethereum.NotFound] in the loop: lines 187-193 and 204-214. *)
Definition tx_failed (tr : Receipt) : error :=
  fmt.Errorf "tx failed: %+v" [Receipt_String libs tr].

(** The [for] loop of [waitForTx], at most [fuel] iterations. *)
Fixpoint poll (ctx : Context) (txHash : Hash) (fuel : nat)
  : M W (option error) :=
  match fuel with
  | O => out_of_fuel
  | S fuel' =>
      sel <- select_Done_After ctx 4 ;;
      match sel with
      | Some err => ret (Some err)
      | None =>
          r <- receipt ctx txHash ;;
          match r with
          | inl err =>
              if is_NotFound err then poll ctx txHash fuel'
              else ret (Some err)
          | inr tr =>
              if negb (Status tr =? ReceiptStatusSuccessful libs)
              then ret (Some (tx_failed tr))
              else ret None
          end
      end
  end.

Definition waitForTx (ctx : Context) (txHash : Hash) (fuel : nat)
  : M W (option error) :=
  match Commit backend with
  | Some commit =>
      _ <- call (fun w => (tt, commit w)) (fun _ => EvCommit) ;;
      r <- receipt ctx txHash ;;
      match r with
      | inl err => ret (Some err)
      | inr tr =>
          if negb (Status tr =? ReceiptStatusSuccessful libs)
          then ret (Some (tx_failed tr))
          else ret None
      end
  | None => poll ctx txHash fuel
  end.

(** The amounts of lines 102, 115 and 128. *)
Definition feeReserve (gasPrice : Z) : Z :=
  big.Mul (big.NewInt (wrap_int64 (gasLimit * 2))) gasPrice.

Definition netBalance (vaultBalance gasPrice : Z) : Z :=
  big.Sub vaultBalance (feeReserve gasPrice).

Definition primaryShare (vaultBalance : Z) : Z := big.Div vaultBalance int3.

Definition secondaryShare (vaultBalance : Z) : Z :=
  big.Mul (big.Div vaultBalance int3) int2.

Definition HandleEvent (ctx : Context) (event : CloudWatchEvent)
  (fuel : nat) : M W (error + string) :=
  cfg <- call (config_Parse backend) EvParse
    orelse err =>
      (formatError "Unable to parse environment variables with error : %s"
         [Error err]) ;;
  check call (ethclient_Dial backend (config.EthereumJSONRPCURL cfg))
          (EvDial (config.EthereumJSONRPCURL cfg))
    orelse err =>
      (formatError "Failed to call ethereum client with error : %s"
         [Error err]) ;;
  gasPrice <- call (SuggestGasPrice backend ctx) EvSuggestGasPrice
    orelse err =>
      (formatError
         "Failed to get gas price from ethereum client with error : %s"
         [Error err]) ;;
  vaultKey <- ret (HexToECDSA libs (config.deqodeVaultPrivateKey cfg))
    orelse err =>
      (formatError
         "Failed to parse ecdsa private key from deqode vault private key sting with error : %s"
         [Error err]) ;;
  tokenHolderProcessingKey <-
      ret (HexToECDSA libs (config.TokenHolderProcessingKey cfg))
    orelse err =>
      (formatError
         "Failed to parse ecdsa private key from token holder processing key string with error : %s"
         [Error err]) ;;
  let deqodeAddress := HexToAddress libs (config.deqodeAddress cfg) in
  let tokenHolderContractAddress :=
    HexToAddress libs (config.TokenHolderContractAddress cfg) in
  let deqodeVaultAddress := PubkeyToAddress libs (PublicKey vaultKey) in
  vaultBalance0 <- call (BalanceAt backend ctx deqodeVaultAddress)
                     (EvBalanceAt deqodeVaultAddress)
    orelse err =>
      (formatError "Failed to get balance for vault with error : %s"
         [Error err]) ;;
  let vaultBalance := netBalance vaultBalance0 gasPrice in
  if negb (big.Cmp vaultBalance (big.NewInt 0) =? 1) then
    ret (formatError "Not enough balance in vault to cover txn fees" [])
  else
  let vaultAuth := NewKeyedTransactor vaultKey in
  let vaultAuth :=
    {| From := From vaultAuth; Value := Value vaultAuth;
       GasPrice := Some gasPrice; GasLimit := GasLimit vaultAuth |} in
  let vaultAuth :=
    {| From := From vaultAuth; Value := Value vaultAuth;
       GasPrice := GasPrice vaultAuth; GasLimit := uint64 gasLimit |} in
  let vaultAuth :=
    {| From := From vaultAuth; Value := Some (primaryShare vaultBalance);
       GasPrice := GasPrice vaultAuth; GasLimit := GasLimit vaultAuth |} in
  txn <- call (Transfer backend vaultAuth tokenHolderContractAddress)
           (EvTransfer vaultAuth tokenHolderContractAddress)
    orelse err =>
      (formatError
         "Failed to transfer vault balance to token holder contract with error : %s"
         [Error err]) ;;
  check waitForTx ctx txn fuel
    orelse err =>
      (formatError "Fund transfer txn with hash %s failed  with error : %s"
         [Hash_Hex libs txn; Error err]) ;;
  let vaultAuth :=
    {| From := From vaultAuth; Value := Some (secondaryShare vaultBalance);
       GasPrice := GasPrice vaultAuth; GasLimit := GasLimit vaultAuth |} in
  txn <- call (Transfer backend vaultAuth deqodeAddress)
           (EvTransfer vaultAuth deqodeAddress)
    orelse err =>
      (formatError
         "Failed to transfer vault balance to deqode address with error : %s"
         [Error err]) ;;
  check waitForTx ctx txn fuel
    orelse err =>
      (formatError "Fund transfer txn with hash %s failed  with error : %s"
         [Hash_Hex libs txn; Error err]) ;;
  check call (NewdeqodeTokenHolderProgramContract backend
                tokenHolderContractAddress)
          (EvNewContract tokenHolderContractAddress)
    orelse err =>
      (formatError
         "Failed to load token holder contract for address %s with error : %s"
         [Address_String libs tokenHolderContractAddress; Error err]) ;;
  let tokenHolderAuth := NewKeyedTransactor tokenHolderProcessingKey in
  txn <- call (SellVouchers backend tokenHolderAuth)
           (EvSellVouchers tokenHolderAuth)
    orelse err =>
      (formatError
         "Failed to  call sell vouchers of token holder program contract with error : %s"
         [Error err]) ;;
  check waitForTx ctx txn fuel
    orelse err =>
      (formatError "Sell vouchers txn with hash %s failed  with error : %s"
         [Hash_Hex libs txn; Error err]) ;;
  txn <- call (BuyVouchers backend tokenHolderAuth)
           (EvBuyVouchers tokenHolderAuth)
    orelse err =>
      (formatError
         "Failed to  call buy vouchers of token holder program contract with error : %s"
         [Error err]) ;;
  check waitForTx ctx txn fuel
    orelse err =>
      (formatError "Buy vouchers txn with hash %s failed  with error : %s"
         [Hash_Hex libs txn; Error err]) ;;
  ret (inr (fmt.Sprintf "Token holder event successfully called at %s!"
              [Time_String libs (Time event)])).

End Program.

Arguments HandleEvent {W} backend libs ctx event fuel st.
Arguments waitForTx {W} backend libs ctx txHash fuel st.
Arguments poll {W} backend libs ctx txHash fuel st.
Arguments select_Done_After {W} backend libs ctx d st.
Arguments receipt {W} backend ctx txHash st.

(** ** Vocabulary for traces and results *)

(** The error of line 106. *)
Definition InsufficientFunds : error :=
  fmt.Errorf "Not enough balance in vault to cover txn fees"%string [].

(** The value [HandleEvent] returns at line 171. *)
Definition SuccessMessage (libs : Libs) (event : CloudWatchEvent) : string :=
  String.append "Token holder event successfully called at "%string
    (String.append (Time_String libs (Time event)) "!"%string).

Definition is_receipt (e : event) : bool :=
  match e with EvReceipt _ _ _ => true | _ => false end.

Definition is_select (e : event) : bool :=
  match e with EvAfter _ _ | EvDone _ _ => true | _ => false end.

(** Events of [waitForTx]. *)
Definition is_wait (e : event) : bool :=
  match e with
  | EvCommit | EvReceipt _ _ _ | EvAfter _ _ | EvDone _ _ => true
  | _ => false
  end.

Definition is_not_found_reply (e : event) : bool :=
  match e with EvReceipt _ _ (inl err) => is_NotFound err | _ => false end.

(** Number of receipt queries answered with [ethereum.NotFound]. *)
Definition not_found_replies (tr : list event) : nat :=
  List.length (filter is_not_found_reply tr).

(** Number of timer intervals that elapsed in full. *)
Definition intervals (tr : list event) : nat :=
  List.length (filter (fun e => match e with EvAfter _ _ => true | _ => false end)
            tr).

(** An event after which the program returns an error.  A receipt query
    answered [ethereum.NotFound] is one only outside the polling loop, that
    is when the backend has [Commit]. *)
Definition failed {W} (backend : Backend W) (libs : Libs) (e : event)
  : bool :=
  match e with
  | EvParse (inl _) | EvDial _ (Some _) | EvSuggestGasPrice (inl _)
  | EvBalanceAt _ (inl _) | EvTransfer _ _ (inl _) | EvNewContract _ (Some _)
  | EvSellVouchers _ (inl _) | EvBuyVouchers _ (inl _) => true
  | EvReceipt _ _ (inl err) =>
      match Commit backend with
      | Some _ => true
      | None => negb (is_NotFound err)
      end
  | EvReceipt _ _ (inr tr) =>
      negb (Status tr =? ReceiptStatusSuccessful libs)
  | EvDone _ _ => true
  | _ => false
  end.

(** What the four submissions are, without the answers. *)
Inductive step : Type :=
| StepTransfer (opts : TransactOpts) (to : Address)
| StepSellVouchers (opts : TransactOpts)
| StepBuyVouchers (opts : TransactOpts).

Definition step_of (e : event) : option step :=
  match e with
  | EvTransfer opts to _ => Some (StepTransfer opts to)
  | EvSellVouchers opts _ => Some (StepSellVouchers opts)
  | EvBuyVouchers opts _ => Some (StepBuyVouchers opts)
  | _ => None
  end.

Definition suggested_gas_price (e : event) : option Z :=
  match e with EvSuggestGasPrice (inr p) => Some p | _ => None end.

Definition reported_balance (e : event) : option Z :=
  match e with EvBalanceAt _ (inr b) => Some b | _ => None end.

(** What a trace shows of one kind, in order. *)
Fixpoint observe {A} (f : event -> option A) (tr : list event) : list A :=
  match tr with
  | [] => []
  | e :: tr' =>
      match f e with
      | Some a => a :: observe f tr'
      | None => observe f tr'
      end
  end.

(** The submissions of a run, the gas prices the chain suggested and the
    balances it reported. *)
Definition steps (tr : list event) : list step := observe step_of tr.
Definition gas_prices (tr : list event) : list Z :=
  observe suggested_gas_price tr.
Definition balances (tr : list event) : list Z :=
  observe reported_balance tr.

(** Transfer, transfer, sell, buy: in this order, and stopping anywhere. *)
Definition in_order (l : list step) : bool :=
  match l with
  | []
  | [StepTransfer _ _]
  | [StepTransfer _ _; StepTransfer _ _]
  | [StepTransfer _ _; StepTransfer _ _; StepSellVouchers _]
  | [StepTransfer _ _; StepTransfer _ _; StepSellVouchers _;
     StepBuyVouchers _] => true
  | _ => false
  end.

(** Whether a trace has a failed event. *)
Definition has_failure {W} (backend : Backend W) (libs : Libs)
  (tr : list event) : bool :=
  existsb (failed backend libs) tr.

(** After a failed event nothing else happens. *)
Fixpoint failfast {W} (backend : Backend W) (libs : Libs)
  (tr : list event) : Prop :=
  match tr with
  | [] => True
  | e :: tr' =>
      (failed backend libs e = true -> tr' = []) /\ failfast backend libs tr'
  end.

(** [select] takes the timer case when entered at [t]. *)
Definition timer_first (libs : Libs) (ctx : Context) (t : Z) : Prop :=
  match done_at ctx with
  | Some c => t + 4 < c \/ (c = t + 4 /\ select_tie libs c = false)
  | None => True
  end.

(** The runs of the polling loop entered at instant [t]: their trace, their
    result and the instant at which the loop is left. *)
Inductive polled (libs : Libs) (ctx : Context) (txHash : Hash)
  : Z -> list event -> option (option error) -> Z -> Prop :=
| polled_out_of_fuel t :
    polled libs ctx txHash t [] None t
| polled_done t c :
    done_at ctx = Some c ->
    c <= t + 4 ->
    polled libs ctx txHash t [EvDone t (Z.max t c)]
      (Some (Some (ctx_err ctx))) (Z.max t c)
| polled_not_found t tr r t' :
    timer_first libs ctx t ->
    polled libs ctx txHash (t + 4) tr r t' ->
    polled libs ctx txHash t
      (EvAfter t (t + 4) :: EvReceipt (t + 4) txHash (inl NotFound) :: tr)
      r t'
| polled_error t err :
    timer_first libs ctx t ->
    is_NotFound err = false ->
    polled libs ctx txHash t
      [EvAfter t (t + 4); EvReceipt (t + 4) txHash (inl err)]
      (Some (Some err)) (t + 4)
| polled_failed t rc :
    timer_first libs ctx t ->
    Status rc <> ReceiptStatusSuccessful libs ->
    polled libs ctx txHash t
      [EvAfter t (t + 4); EvReceipt (t + 4) txHash (inr rc)]
      (Some (Some (tx_failed libs rc))) (t + 4)
| polled_confirmed t rc :
    timer_first libs ctx t ->
    Status rc = ReceiptStatusSuccessful libs ->
    polled libs ctx txHash t
      [EvAfter t (t + 4); EvReceipt (t + 4) txHash (inr rc)]
      (Some None) (t + 4).

(** ** More vocabulary for traces *)

Definition parsed_config (e : event) : option config.t :=
  match e with EvParse (inr c) => Some c | _ => None end.

Definition asked_balance (e : event) : option Address :=
  match e with EvBalanceAt a _ => Some a | _ => None end.

(** The configurations [config.Parse] returned and the addresses whose
    balance was asked. *)
Definition configs (tr : list event) : list config.t :=
  observe parsed_config tr.
Definition balance_queries (tr : list event) : list Address :=
  observe asked_balance tr.

(** The receipt queries of a trace. *)
Definition receipt_queries (tr : list event) : list event :=
  filter is_receipt tr.

Definition is_commit (e : event) : bool :=
  match e with EvCommit => true | _ => false end.

(** What a submission can take from the sender at most: the value sent plus
    the gas limit at the gas price.  Only the two transfers set these. *)
Definition outlay (s : step) : Z :=
  match s with
  | StepTransfer opts _ =>
      match Value opts with Some v => v | None => 0 end +
      GasLimit opts * match GasPrice opts with Some p => p | None => 0 end
  | _ => 0
  end.

Fixpoint total_outlay (l : list step) : Z :=
  match l with
  | [] => 0
  | s :: l' => outlay s + total_outlay l'
  end.

(** The four submissions of lines 110-160, for a configuration, the two
    keys, a gas price and a vault balance. *)
Definition plan (libs : Libs) (cfg : config.t)
  (vaultKey tokenHolderProcessingKey : PrivateKey)
  (gasPrice vaultBalance : Z) : list step :=
  let vault := PubkeyToAddress libs (PublicKey vaultKey) in
  let net := netBalance vaultBalance gasPrice in
  [StepTransfer
     {| From := vault; Value := Some (primaryShare net);
        GasPrice := Some gasPrice; GasLimit := 21000 |}
     (HexToAddress libs (config.TokenHolderContractAddress cfg));
   StepTransfer
     {| From := vault; Value := Some (secondaryShare net);
        GasPrice := Some gasPrice; GasLimit := 21000 |}
     (HexToAddress libs (config.deqodeAddress cfg));
   StepSellVouchers (NewKeyedTransactor libs tokenHolderProcessingKey);
   StepBuyVouchers (NewKeyedTransactor libs tokenHolderProcessingKey)].

(** The error an event carries, for the events after which the program
    returns an error. *)
Definition cause_of (libs : Libs) (ctx : Context) (e : event)
  : option error :=
  match e with
  | EvParse (inl err) | EvDial _ (Some err) | EvSuggestGasPrice (inl err)
  | EvBalanceAt _ (inl err) | EvTransfer _ _ (inl err)
  | EvNewContract _ (Some err) | EvSellVouchers _ (inl err)
  | EvBuyVouchers _ (inl err) | EvReceipt _ _ (inl err) => Some err
  | EvReceipt _ _ (inr rc) => Some (tx_failed libs rc)
  | EvDone _ _ => Some (ctx_err ctx)
  | _ => None
  end.

(** [s] ends with [suffix]. *)
Definition ends_with (s suffix : string) : Prop :=
  exists label, s = String.append label suffix.

(** ** Start-up: [init] *)

Module strings.

(** [strings.HasPrefix] and [strings.TrimPrefix], on byte strings. *)
Definition HasPrefix (s prefix : string) : bool := String.prefix prefix s.

Definition TrimPrefix (s prefix : string) : string :=
  if HasPrefix s prefix
  then substring (String.length prefix)
         (String.length s - String.length prefix) s
  else s.

End strings.

Module ssm.
(** The type [Parameter] of package [ssm]: both fields are pointers, [nil]
    is [None]. *)
Record Param := { Name : option string; Value : option string }.
End ssm.

(** The process environment, the AWS session and the parameter store, as
    transitions of a world [W]; [strings.ToUpper] as it is in the library.
    [os.Setenv] returns an error that [init] does not look at. *)
Record Platform (W : Type) := {
  os_LookupEnv : string -> W -> option string;
  session_NewSession : W -> option error * W;
  ssm_GetParametersByPath :
    string -> bool -> W -> (error + list (option ssm.Param)) * W;
  os_Setenv : string -> string -> W -> W;
  strings_ToUpper : string -> string
}.

Arguments os_LookupEnv {W}.
Arguments session_NewSession {W}.
Arguments ssm_GetParametersByPath {W}.
Arguments os_Setenv {W}.
Arguments strings_ToUpper {W}.

Inductive boot_event : Type :=
| BootNewSession (r : option error)
| BootGetParameters (path : string) (withDecryption : bool)
    (r : error + list (option ssm.Param))
| BootSetenv (name value : string)
| BootLog (line : string).

(** How [init] ends: it returns, it calls [os.Exit], or it dereferences a
    [nil] pointer. *)
Inductive ended : Type :=
| Returned
| Exited (code : Z)
| Panicked.

Definition newline : string := String (ascii_of_nat 10) EmptyString.

Section Startup.

Context {W : Type}.
Variable platform : Platform W.

Local Open Scope string_scope.

(** The name of the variable set for a parameter (line 51). *)
Definition paramName (path name : string) : string :=
  strings_ToUpper platform (strings.TrimPrefix name path).

(** The [for] loop of lines 50-54. *)
Fixpoint set_parameters (path : string)
  (parameters : list (option ssm.Param)) (w : W)
  : ended * W * list boot_event :=
  match parameters with
  | [] => (Returned, w, [])
  | None :: _ => (Panicked, w, [])
  | Some parameter :: rest =>
      match ssm.Name parameter with
      | None => (Panicked, w, [])
      | Some name =>
          match ssm.Value parameter with
          | None => (Panicked, w, [])
          | Some value =>
              match set_parameters path rest
                      (os_Setenv platform (paramName path name) value w) with
              | (r, w', t) =>
                  (r, w',
                   BootSetenv (paramName path name) value
                     :: BootLog (fmt.Sprintf
                                   (String.append "set env variable: %s"
                                      newline)
                                   [paramName path name])
                     :: t)
              end
          end
      end
  end.

Definition init (w : W) : ended * W * list boot_event :=
  match os_LookupEnv platform "SSM_PS_PATH" w with
  | None => (Returned, w, [])
  | Some path =>
      match session_NewSession platform w with
      | (Some err, w1) =>
          (Exited 1, w1,
           [BootNewSession (Some err);
            BootLog (fmt.Sprintf
                       (String.append
                          "error: failed to create new session %s" newline)
                       [Error err])])
      | (None, w1) =>
          match ssm_GetParametersByPath platform path true w1 with
          | (inl err, w2) =>
              (Exited 1, w2,
               [BootNewSession None;
                BootGetParameters path true (inl err);
                BootLog (fmt.Sprintf
                           (String.append
                              "error: failed to get parameters, %s" newline)
                           [Error err])])
          | (inr parameters, w2) =>
              match set_parameters path parameters w2 with
              | (r, w3, t) =>
                  (r, w3,
                   BootNewSession None
                     :: BootGetParameters path true (inr parameters) :: t)
              end
          end
      end
  end.

End Startup.

Arguments paramName {W} platform path name.
Arguments set_parameters {W} platform path parameters w.
Arguments init {W} platform w.

(** The variables [os.Setenv] was called with, in order. *)
Fixpoint setenvs (tr : list boot_event) : list (string * string) :=
  match tr with
  | [] => []
  | BootSetenv name value :: tr' => (name, value) :: setenvs tr'
  | _ :: tr' => setenvs tr'
  end.

(** The name and value a parameter has, when neither pointer is [nil]. *)
Definition assignment (p : option ssm.Param) : option (string * string) :=
  match p with
  | Some parameter =>
      match ssm.Name parameter, ssm.Value parameter with
      | Some name, Some value => Some (name, value)
      | _, _ => None
      end
  | None => None
  end.

(** The parameters before the first one with a [nil] pointer. *)
Fixpoint readable (parameters : list (option ssm.Param))
  : list (string * string) :=
  match parameters with
  | [] => []
  | p :: rest =>
      match assignment p with
      | Some nv => nv :: readable rest
      | None => []
      end
  end.

(** The environment after a list of [os.Setenv] calls. *)
Fixpoint setenv_all {W} (platform : Platform W)
  (l : list (string * string)) (w : W) : W :=
  match l with
  | [] => w
  | (name, value) :: l' =>
      setenv_all platform l' (os_Setenv platform name value w)
  end.

(** ** A scripted backend, for concrete runs *)

Module Sim.

Local Open Scope string_scope.
Local Open Scope Z_scope.

(** The world counts the receipt queries answered so far; the [n]-th query
    (from 0) is answered [script n].  The chain reports a fixed gas price
    and vault balance and accepts every submission. *)
Definition W := nat.

Definition cfg : config.t :=
  {| config.EthereumJSONRPCURL := "http://localhost:8545";
     config.deqodeVaultPrivateKey := "aa";
     config.TokenHolderProcessingKey := "bbb";
     config.deqodeAddress := "0x01";
     config.TokenHolderContractAddress := "0x0002" |}.

Definition ok_receipt (h : Hash) : Receipt :=
  {| Status := 1; TxHash := h; GasUsed := 21000 |}.

Definition bad_receipt (h : Hash) : Receipt :=
  {| Status := 0; TxHash := h; GasUsed := 21000 |}.

Definition backend (gasPrice balance : Z) (commit : bool)
  (script : nat -> Hash -> error + Receipt) : Backend W :=
  {| config_Parse := fun w => (inr cfg, w);
     ethclient_Dial := fun _ w => (None, w);
     SuggestGasPrice := fun _ w => (inr gasPrice, w);
     BalanceAt := fun _ _ w => (inr balance, w);
     Transfer := fun opts to w => (inr (100 + to), w);
     NewdeqodeTokenHolderProgramContract := fun _ w => (None, w);
     SellVouchers := fun _ w => (inr 201, w);
     BuyVouchers := fun _ w => (inr 202, w);
     TransactionReceipt := fun _ h w => (script w h, S w);
     Commit := if commit then Some (fun w => w) else None;
     Elapse := fun _ w => w |}.

Definition libs : Libs :=
  {| HexToECDSA := fun s =>
       if String.eqb s "" then inl (ErrorString "invalid length")
       else inr {| PublicKey := (Z.of_nat (String.length s), 0); D := 1 |};
     HexToAddress := fun s => Z.of_nat (String.length s);
     PubkeyToAddress := fun p => fst p;
     Hash_Hex := fun _ => "0x00";
     Address_String := fun _ => "0x00";
     Time_String := fun _ => "2019-06-01 12:00:00 +0000 UTC";
     Receipt_String := fun _ => "&{Status:0}";
     ReceiptStatusSuccessful := 1;
     select_tie := fun _ => true |}.

(** Scripts. *)
Definition always_ok : nat -> Hash -> error + Receipt :=
  fun _ h => inr (ok_receipt h).

Definition not_found_twice : nat -> Hash -> error + Receipt :=
  fun n h => if Nat.ltb n 2 then inl NotFound else inr (ok_receipt h).

Definition never_found : nat -> Hash -> error + Receipt :=
  fun _ _ => inl NotFound.

Definition reverted : nat -> Hash -> error + Receipt :=
  fun _ h => inr (bad_receipt h).


(** Contexts: one that is never done, one cancelled at instant [c]. *)
Definition background : Context :=
  {| done_at := None; ctx_err := Canceled |}.

Definition cancelled_at (c : Z) : Context :=
  {| done_at := Some c; ctx_err := Canceled |}.

Definition start : St W := {| world := O; now := 0 |}.

Definition tick : CloudWatchEvent := {| Time := 1559390400 |}.

End Sim.

(** The variable a parameter sets, from its name and value. *)
Definition rename {W} (platform : Platform W) (path : string)
  (nv : string * string) : string * string :=
  (paramName platform path (fst nv), snd nv).

(** A receipt query, if the event is one, was issued no later than [c]. *)
Definition asked_by (c : Z) (e : event) : Prop :=
  match e with EvReceipt t _ _ => t <= c | _ => True end.

(** ** More scripted collaborators *)

Module Sim2.

Import Sim.
Local Open Scope string_scope.
Local Open Scope Z_scope.

(** A backend that differs by the configuration it returns. *)
Definition with_config (c : config.t) (b : Backend W) : Backend W :=
  {| config_Parse := fun w => (inr c, w);
     ethclient_Dial := ethclient_Dial b;
     SuggestGasPrice := SuggestGasPrice b;
     BalanceAt := BalanceAt b;
     Transfer := Transfer b;
     NewdeqodeTokenHolderProgramContract :=
       NewdeqodeTokenHolderProgramContract b;
     SellVouchers := SellVouchers b;
     BuyVouchers := BuyVouchers b;
     TransactionReceipt := TransactionReceipt b;
     Commit := Commit b;
     Elapse := Elapse b |}.

(** A configuration whose processing key does not parse. *)
Definition no_processing_key : config.t :=
  {| config.EthereumJSONRPCURL := "http://localhost:8545";
     config.deqodeVaultPrivateKey := "aa";
     config.TokenHolderProcessingKey := "";
     config.deqodeAddress := "0x01";
     config.TokenHolderContractAddress := "0x0002" |}.

(** The process environment, newest binding first. *)
Definition Env := list (string * string).

Fixpoint lookup (name : string) (env : Env) : option string :=
  match env with
  | [] => None
  | (n, v) :: env' => if String.eqb n name then Some v else lookup name env'
  end.

Definition upper (c : ascii) : ascii :=
  let n := nat_of_ascii c in
  if Nat.leb 97 n && Nat.leb n 122 then ascii_of_nat (n - 32) else c.

Fixpoint ToUpper (s : string) : string :=
  match s with
  | EmptyString => EmptyString
  | String c s' => String (upper c) (ToUpper s')
  end.

(** A parameter store that answers [store], behind a session that can be
    created or not. *)
Definition platform (session : option error)
  (store : error + list (option ssm.Param)) : Platform Env :=
  {| os_LookupEnv := lookup;
     session_NewSession := fun env => (session, env);
     ssm_GetParametersByPath := fun _ _ env => (store, env);
     os_Setenv := fun name value env => (name, value) :: env;
     strings_ToUpper := ToUpper |}.

Definition param (name value : string) : option ssm.Param :=
  Some {| ssm.Name := Some name; ssm.Value := Some value |}.

Definition two_parameters : list (option ssm.Param) :=
  [param "/app/prod/ethereum_url" "http://node:8545";
   param "/app/prod/deqode_address" "0x01"].

Definition with_path : Env := [("SSM_PS_PATH", "/app/prod")].

End Sim2.

(** * Properties *)

(** ** Lists of events *)

Lemma cons_eq_split {A} (x : A) l pre e post :
  x :: l = pre ++ e :: post ->
  (pre = [] /\ x = e /\ l = post) \/
  (exists pre', pre = x :: pre' /\ l = pre' ++ e :: post).
Proof.
  destruct pre as [|y pre']; simpl; intros H; inversion H; subst.
  - left; auto.
  - right; eexists; eauto.
Qed.

Lemma append_nil_r (s : string) : String.append s EmptyString = s.
Proof. induction s; simpl; congruence. Qed.

Lemma nil_eq_split {A} (pre : list A) e post : [] = pre ++ e :: post -> False.
Proof. destruct pre; discriminate. Qed.

(** Decompose an equation [x1 :: ... :: xn :: l = pre ++ e :: post] into the
    positions [e] can take. *)
Ltac split_trace H :=
  repeat match type of H with
  | [] = _ ++ _ :: _ => exfalso; exact (nil_eq_split _ _ _ H)
  | _ :: _ = _ ++ _ :: _ =>
      let H' := fresh "H" in
      destruct (cons_eq_split _ _ _ _ _ H) as [(? & ? & ?) | (? & ? & H')];
      [ clear H | clear H; rename H' into H ]; subst
  end.

Section Waiting.

Context {W : Type}.
Variable backend : Backend W.
Variable libs : Libs.

(** ** The polling loop *)

Lemma select_cases ctx st :
  (exists c,
      done_at ctx = Some c /\ c <= now st + 4 /\
      select_Done_After backend libs ctx 4 st =
        (Some (Some (ctx_err ctx)),
         {| world := Elapse backend (Z.max (now st) c - now st) (world st);
            now := Z.max (now st) c |},
         [EvDone (now st) (Z.max (now st) c)])) \/
  (timer_first libs ctx (now st) /\
   select_Done_After backend libs ctx 4 st =
     (Some None,
      {| world := Elapse backend 4 (world st); now := now st + 4 |},
      [EvAfter (now st) (now st + 4)])).
Proof.
  unfold select_Done_After, timer_first.
  destruct (done_at ctx) as [c|]; [|right; auto].
  destruct (c <? now st + 4) eqn:Hlt; simpl.
  - left. exists c. apply Z.ltb_lt in Hlt. repeat split; auto; lia.
  - apply Z.ltb_ge in Hlt.
    destruct (c =? now st + 4) eqn:Heq; simpl.
    + apply Z.eqb_eq in Heq.
      destruct (select_tie libs c) eqn:Htie.
      * left. exists c. repeat split; auto; lia.
      * right. split; auto.
    + apply Z.eqb_neq in Heq. right. split; auto. left; lia.
Qed.

(** Every run of the loop is one the relation [polled] describes. *)
Lemma poll_polled ctx txHash fuel : forall st r st' tr,
  poll backend libs ctx txHash fuel st = (r, st', tr) ->
  polled libs ctx txHash (now st) tr r (now st').
Proof.
  induction fuel as [|fuel IH]; intros st r st' tr H.
  - inversion H; subst. constructor.
  - simpl in H. unfold bind in H.
    destruct (select_cases ctx st) as [(c & Hc & Hle & Hs) | (Ht & Hs)];
      rewrite Hs in H; clear Hs.
    + inversion H; subst; simpl. now apply polled_done.
    + unfold receipt, call in H. simpl in H.
      destruct (TransactionReceipt backend ctx txHash
                  (Elapse backend 4 (world st))) as [[err|rc] w'].
      * destruct (is_NotFound err) eqn:Hnf.
        -- destruct err; try discriminate.
           destruct (poll backend libs ctx txHash fuel
                       {| world := w'; now := now st + 4 |})
             as [[r1 st1] t1] eqn:Hp.
           inversion H; subst. apply IH in Hp. simpl in Hp.
           now apply polled_not_found.
        -- inversion H; subst; simpl. now apply polled_error.
      * destruct (Status rc =? ReceiptStatusSuccessful libs) eqn:Hs;
          simpl in H; inversion H; subst; simpl.
        -- apply Z.eqb_eq in Hs. now apply polled_confirmed.
        -- apply Z.eqb_neq in Hs. now apply polled_failed.
Qed.

Lemma waitForTx_polling ctx txHash fuel st r st' tr :
  Commit backend = None ->
  waitForTx backend libs ctx txHash fuel st = (r, st', tr) ->
  polled libs ctx txHash (now st) tr r (now st').
Proof.
  unfold waitForTx. intros -> H. now apply (poll_polled _ _ fuel).
Qed.

(** The branch taken when the backend has [Commit], as one equation. *)
Lemma waitForTx_commit_eq ctx txHash fuel st commit :
  Commit backend = Some commit ->
  waitForTx backend libs ctx txHash fuel st =
    (Some match fst (TransactionReceipt backend ctx txHash
                       (commit (world st))) with
          | inl err => Some err
          | inr rc =>
              if Status rc =? ReceiptStatusSuccessful libs then None
              else Some (tx_failed libs rc)
          end,
     {| world := snd (TransactionReceipt backend ctx txHash
                        (commit (world st)));
        now := now st |},
     [EvCommit;
      EvReceipt (now st) txHash
        (fst (TransactionReceipt backend ctx txHash (commit (world st))))]).
Proof.
  intros Hc. unfold waitForTx. rewrite Hc.
  unfold bind, call, receipt, call, ret. simpl.
  destruct (TransactionReceipt backend ctx txHash (commit (world st)))
    as [[err|rc] w']; simpl; [reflexivity|].
  destruct (Status rc =? ReceiptStatusSuccessful libs); reflexivity.
Qed.

Lemma polled_first_select ctx txHash t tr r t' :
  polled libs ctx txHash t tr r t' ->
  forall e rest, tr = e :: rest -> is_select e = true.
Proof. destruct 1; intros e rest E; inversion E; reflexivity. Qed.

Lemma polled_receipt_failed ctx txHash t tr r t' :
  polled libs ctx txHash t tr r t' ->
  forall pre t1 h rc post,
    tr = pre ++ EvReceipt t1 h (inr rc) :: post ->
    Status rc <> ReceiptStatusSuccessful libs ->
    post = [] /\ r = Some (Some (tx_failed libs rc)).
Proof.
  induction 1; intros pre t1 h rc0 post E Hs; split_trace E;
    try discriminate; try (now eapply IHpolled; eauto);
    match goal with H : EvReceipt _ _ _ = EvReceipt _ _ _ |- _ =>
      inversion H; subst end; auto; contradiction.
Qed.


Lemma polled_query_instants ctx txHash t tr r t' :
  polled libs ctx txHash t tr r t' ->
  forall pre t1 h a post,
    tr = pre ++ EvReceipt t1 h a :: post ->
    exists pre',
      pre = pre' ++ [EvAfter (t1 - 4) t1] /\
      t1 = t + 4 * (Z.of_nat (List.length (filter is_receipt pre)) + 1).
Proof.
  induction 1; intros pre t1 h a post E; split_trace E; try discriminate;
    try (match goal with H : EvReceipt _ _ _ = EvReceipt _ _ _ |- _ =>
           inversion H; subst end;
         exists []; simpl; split; [f_equal; f_equal; lia | lia]).
  destruct (IHpolled _ _ _ _ _ eq_refl) as (pre' & -> & Ht).
  eexists (_ :: _ :: pre'). split; [reflexivity|].
  cbn [filter is_receipt List.length]. lia.
Qed.

Lemma polled_resolution_instant ctx txHash t tr r t' :
  polled libs ctx txHash t tr r t' ->
  forall pre t1 h rc,
    tr = pre ++ [EvReceipt t1 h (inr rc)] ->
    t1 = t' /\ t' = t + 4 * (Z.of_nat (not_found_replies tr) + 1).
Proof.
  unfold not_found_replies.
  induction 1; intros pre t1 h rc0 E; split_trace E; try discriminate;
    try (match goal with H : EvReceipt _ _ _ = EvReceipt _ _ _ |- _ =>
           inversion H; subst end; simpl; split; lia).
  destruct (IHpolled _ _ _ _ eq_refl) as (-> & Ht).
  split; [reflexivity|].
  cbn [filter is_not_found_reply is_NotFound List.length]. lia.
Qed.

Lemma polled_receipts_before ctx txHash t tr r t' c :
  polled libs ctx txHash t tr r t' ->
  done_at ctx = Some c ->
  forall t1 h a, In (EvReceipt t1 h a) tr -> t1 <= c.
Proof.
  induction 1; intros Hc t1 h a Hin; simpl in Hin; unfold timer_first in *;
    repeat match goal with
    | H : _ \/ _ |- _ => destruct H
    | H : False |- _ => contradiction
    | H : _ = EvReceipt _ _ _ |- _ => inversion H; subst; clear H
    | H : match done_at ?x with _ => _ end, E : done_at ?x = _ |- _ =>
        rewrite E in H
    | H : _ /\ _ |- _ => destruct H
    end; try lia; eauto.
Qed.

Lemma polled_end ctx txHash t tr r t' :
  polled libs ctx txHash t tr r t' ->
  forall x, r = Some x ->
    (exists pre t1 h a,
        tr = pre ++ [EvReceipt t1 h a] /\
        is_not_found_reply (EvReceipt t1 h a) = false) \/
    (exists c, done_at ctx = Some c /\ x = Some (ctx_err ctx) /\
               t' = Z.max t c /\ exists pre t1, tr = pre ++ [EvDone t1 t']).
Proof.
  induction 1; intros x E; try discriminate.
  - inversion E; subst. right. exists c. repeat split; auto.
    exists [], t. reflexivity.
  - destruct (IHpolled _ E) as
      [(pre & t1 & h & a & -> & Hn) | (c & Hc & -> & -> & pre & t1 & ->)].
    + left. exists (EvAfter t (t + 4) :: EvReceipt (t + 4) txHash (inl NotFound)
                      :: pre), t1, h, a. auto.
    + right. exists c. unfold timer_first in H. rewrite Hc in H.
      repeat split; auto; [lia|].
      exists (EvAfter t (t + 4) :: EvReceipt (t + 4) txHash (inl NotFound)
                :: pre), t1. reflexivity.
  - left. exists [EvAfter t (t + 4)], (t + 4), txHash, (inl err).
    simpl. auto.
  - left. exists [EvAfter t (t + 4)], (t + 4), txHash, (inr rc). auto.
  - left. exists [EvAfter t (t + 4)], (t + 4), txHash, (inr rc). auto.
Qed.

(** With a context that is done at [c], the loop returns within the
    iterations that fit before [c], plus one. *)
Lemma poll_returns ctx c txHash fuel : forall st,
  done_at ctx = Some c ->
  (1 <= fuel)%nat ->
  c < now st + 4 * Z.of_nat fuel ->
  exists x st' tr, poll backend libs ctx txHash fuel st = (Some x, st', tr).
Proof.
  induction fuel as [|fuel IH]; intros st Hc Hf Hlt; [lia|].
  simpl. unfold bind.
  destruct (select_cases ctx st) as [(c' & Hc' & Hle & Hs) | (Ht & Hs)];
    rewrite Hs; clear Hs.
  - simpl. eauto.
  - unfold receipt, call. simpl.
    destruct (TransactionReceipt backend ctx txHash
                (Elapse backend 4 (world st))) as [[err|rc] w'].
    + destruct (is_NotFound err); [|simpl; eauto].
      unfold timer_first in Ht. rewrite Hc in Ht.
      assert (Hf' : (1 <= fuel)%nat) by lia.
      assert (Hlt' : c < now st + 4 + 4 * Z.of_nat fuel) by lia.
      destruct (IH {| world := w'; now := now st + 4 |} Hc Hf' Hlt')
        as (x & st' & tr & E).
      rewrite E. eauto.
    + destruct (Status rc =? ReceiptStatusSuccessful libs); simpl; eauto.
Qed.

Lemma select_timer ctx st :
  timer_first libs ctx (now st) ->
  select_Done_After backend libs ctx 4 st =
    (Some None,
     {| world := Elapse backend 4 (world st); now := now st + 4 |},
     [EvAfter (now st) (now st + 4)]).
Proof.
  unfold timer_first, select_Done_After.
  destruct (done_at ctx) as [c|]; [|reflexivity].
  intros [Hlt | [-> Htie]].
  - replace (c <? now st + 4) with false by (symmetry; apply Z.ltb_ge; lia).
    replace (c =? now st + 4) with false by (symmetry; apply Z.eqb_neq; lia).
    reflexivity.
  - rewrite Z.ltb_irrefl, Z.eqb_refl, Htie. reflexivity.
Qed.

(** One iteration of the loop whose [select] takes the timer case. *)
Lemma poll_S_timer ctx txHash fuel st :
  timer_first libs ctx (now st) ->
  poll backend libs ctx txHash (S fuel) st =
    match TransactionReceipt backend ctx txHash
            (Elapse backend 4 (world st)) with
    | (reply, w') =>
        let st1 := {| world := w'; now := now st + 4 |} in
        let evs := [EvAfter (now st) (now st + 4);
                    EvReceipt (now st + 4) txHash reply] in
        match reply with
        | inl err =>
            if is_NotFound err then
              match poll backend libs ctx txHash fuel st1 with
              | (r, st2, t2) => (r, st2, evs ++ t2)
              end
            else (Some (Some err), st1, evs)
        | inr rc =>
            if Status rc =? ReceiptStatusSuccessful libs
            then (Some None, st1, evs)
            else (Some (Some (tx_failed libs rc)), st1, evs)
        end
    end.
Proof.
  intros Ht. simpl. unfold bind. rewrite (select_timer ctx st Ht).
  unfold receipt, call. simpl.
  destruct (TransactionReceipt backend ctx txHash
              (Elapse backend 4 (world st))) as [[err|rc] w']; simpl.
  - destruct (is_NotFound err); [|reflexivity].
    destruct (poll backend libs ctx txHash fuel
                {| world := w'; now := now st + 4 |}) as [[r st2] t2].
    reflexivity.
  - destruct (Status rc =? ReceiptStatusSuccessful libs); reflexivity.
Qed.


(** ** Claims about [waitForTx] *)

(** C9.  When the backend has [Commit], [waitForTx] calls it once, asks for
    the receipt once at the same instant, and returns: no [select], no loop
    iteration, whatever the fuel.  The error of the query is returned as it
    is, a receipt whose status is not the successful one gives the
    [tx failed] error, and a successful one gives [nil]. *)
Theorem waitForTx_with_Commit ctx txHash fuel st commit :
  Commit backend = Some commit ->
  exists reply w',
    TransactionReceipt backend ctx txHash (commit (world st)) = (reply, w') /\
    waitForTx backend libs ctx txHash fuel st =
      (Some match reply with
            | inl err => Some err
            | inr rc =>
                if Status rc =? ReceiptStatusSuccessful libs then None
                else Some (tx_failed libs rc)
            end,
       {| world := w'; now := now st |},
       [EvCommit; EvReceipt (now st) txHash reply]) /\
    (forall rc, reply = inr rc ->
       Status rc <> ReceiptStatusSuccessful libs ->
       waitForTx backend libs ctx txHash fuel st =
         (Some (Some (tx_failed libs rc)), {| world := w'; now := now st |},
          [EvCommit; EvReceipt (now st) txHash reply])).
Proof.
  intros Hc. rewrite (waitForTx_commit_eq ctx txHash fuel st commit Hc).
  destruct (TransactionReceipt backend ctx txHash (commit (world st)))
    as [reply w'].
  exists reply, w'. simpl. repeat split.
  intros rc -> Hs. apply Z.eqb_neq in Hs. rewrite Hs. reflexivity.
Qed.

(** C7.  In any run of [waitForTx], with or without [Commit], a receipt
    whose status is not the successful one is the last event of the run, and
    the run returns the [tx failed] error, whose text carries the receipt. *)
Theorem failed_receipt_ends_wait ctx txHash fuel st r st' tr pre t h rc post :
  waitForTx backend libs ctx txHash fuel st = (r, st', tr) ->
  tr = pre ++ EvReceipt t h (inr rc) :: post ->
  Status rc <> ReceiptStatusSuccessful libs ->
  post = [] /\
  r = Some (Some (tx_failed libs rc)) /\
  Error (tx_failed libs rc) =
    String.append "tx failed: " (Receipt_String libs rc).
Proof.
  intros Hrun E Hs.
  assert (post = [] /\ r = Some (Some (tx_failed libs rc))) as [-> ->].
  { destruct (Commit backend) as [commit|] eqn:Hc.
    - rewrite (waitForTx_commit_eq ctx txHash fuel st commit Hc) in Hrun.
      inversion Hrun; subst; clear Hrun.
      match goal with H : _ = pre ++ _ |- _ => rename H into E end.
      split_trace E; try discriminate.
      match goal with H : EvReceipt _ _ _ = EvReceipt _ _ _ |- _ =>
        injection H as Ht Hh Hr end.
      rewrite Hr. simpl. apply Z.eqb_neq in Hs. rewrite Hs. auto.
    - eapply polled_receipt_failed; eauto using waitForTx_polling. }
  repeat split. unfold tx_failed, fmt.Errorf. simpl.
  now rewrite append_nil_r.
Qed.


(** C10.  Without [Commit], a run of [waitForTx] starts with a [select];
    every receipt query comes right after a [select] whose timer ran its 4
    time units in full, so that the [n]-th query is issued [4 * n] time
    units after the start; and a run that ends on a receipt ends
    [4 * (k + 1)] time units after the start, [k] being the number of
    [NotFound] answers before it. *)
Theorem every_query_follows_a_full_interval ctx txHash fuel st r st' tr :
  Commit backend = None ->
  waitForTx backend libs ctx txHash fuel st = (r, st', tr) ->
  (forall e rest, tr = e :: rest -> is_select e = true) /\
  (forall pre t h a post,
      tr = pre ++ EvReceipt t h a :: post ->
      exists pre',
        pre = pre' ++ [EvAfter (t - 4) t] /\
        t = now st +
            4 * (Z.of_nat (List.length (filter is_receipt pre)) + 1)) /\
  (forall pre t h rc,
      tr = pre ++ [EvReceipt t h (inr rc)] ->
      t = now st' /\
      now st' = now st + 4 * (Z.of_nat (not_found_replies tr) + 1)).
Proof.
  intros Hc Hrun. apply waitForTx_polling in Hrun; auto.
  repeat split.
  - eapply polled_first_select; eauto.
  - eapply polled_query_instants; eauto.
  - eapply polled_resolution_instant; eauto.
  - eapply polled_resolution_instant; eauto.
Qed.

(** C6.  Without [Commit] and with a context that is done at instant [c],
    [waitForTx] returns; it issues no receipt query after [c]; and unless
    the answer to a query issued no later than [c] has decided the wait, it
    returns [ctx.Err()] at the very instant the context is done (at once if
    it was done already), its last event being the interrupted [select]. *)
Theorem cancellation_ends_wait ctx c txHash fuel st :
  Commit backend = None ->
  done_at ctx = Some c ->
  (1 <= fuel)%nat ->
  c < now st + 4 * Z.of_nat fuel ->
  exists r st' tr,
    waitForTx backend libs ctx txHash fuel st = (Some r, st', tr) /\
    (forall t h a, In (EvReceipt t h a) tr -> t <= c) /\
    ((exists pre t h a,
         tr = pre ++ [EvReceipt t h a] /\
         is_not_found_reply (EvReceipt t h a) = false) \/
     (r = Some (ctx_err ctx) /\
      now st' = Z.max (now st) c /\
      exists pre t, tr = pre ++ [EvDone t (Z.max (now st) c)])).
Proof.
  intros Hc Hd Hf Hlt.
  destruct (poll_returns ctx c txHash fuel st Hd Hf Hlt) as (r & st' & tr & E).
  exists r, st', tr.
  assert (Hrun : waitForTx backend libs ctx txHash fuel st = (Some r, st', tr))
    by (unfold waitForTx; now rewrite Hc).
  split; [exact Hrun|].
  apply waitForTx_polling in Hrun; auto.
  split; [eapply polled_receipts_before; eauto|].
  destruct (polled_end _ _ _ _ _ _ Hrun r eq_refl)
    as [Hq | (c' & Hc' & -> & Ht & pre & t1 & ->)]; [left; exact Hq|].
  right. rewrite Hd in Hc'. inversion Hc'; subst c'.
  repeat split; auto. rewrite <- Ht. eauto.
Qed.

(** C4, as the code has it.  Without [Commit] and with a context that is not
    done in the meantime, a backend that answers [NotFound] to the first two
    receipt queries and a successful receipt to the third makes [waitForTx]
    return [nil] after exactly three intervals of 4 time units: one before
    each of the three queries. *)
Theorem confirmed_after_three_intervals ctx txHash fuel st w1 w2 w3 rc :
  Commit backend = None ->
  match done_at ctx with Some c => now st + 3 * 4 < c | None => True end ->
  TransactionReceipt backend ctx txHash (Elapse backend 4 (world st)) =
    (inl NotFound, w1) ->
  TransactionReceipt backend ctx txHash (Elapse backend 4 w1) =
    (inl NotFound, w2) ->
  TransactionReceipt backend ctx txHash (Elapse backend 4 w2) =
    (inr rc, w3) ->
  Status rc = ReceiptStatusSuccessful libs ->
  (3 <= fuel)%nat ->
  let t := now st in
  let tr := [EvAfter t (t + 4); EvReceipt (t + 4) txHash (inl NotFound);
             EvAfter (t + 4) (t + 4 + 4);
             EvReceipt (t + 4 + 4) txHash (inl NotFound);
             EvAfter (t + 4 + 4) (t + 4 + 4 + 4);
             EvReceipt (t + 4 + 4 + 4) txHash (inr rc)] in
  waitForTx backend libs ctx txHash fuel st =
    (Some None, {| world := w3; now := t + 4 + 4 + 4 |}, tr) /\
  intervals tr = 3%nat /\
  t + 4 + 4 + 4 = now st + 3 * 4.
Proof.
  intros Hc Hd H1 H2 H3 Hs Hf t tr. subst t tr.
  split; [|split; [reflexivity | lia]].
  destruct fuel as [|[|[|fuel]]]; try lia.
  assert (Ht : forall d, 0 <= d <= 8 -> timer_first libs ctx (now st + d)).
  { intros d Hd'. unfold timer_first.
    destruct (done_at ctx); auto. left; lia. }
  unfold waitForTx. rewrite Hc.
  rewrite poll_S_timer, H1
    by (generalize (Ht 0); rewrite Z.add_0_r; intros X; apply X; lia).
  cbn [is_NotFound]. cbv zeta.
  rewrite poll_S_timer by (apply (Ht 4); lia).
  cbn [now world]. rewrite H2. cbn [is_NotFound]. cbv zeta.
  rewrite poll_S_timer
    by (cbn [now]; replace (now st + 4 + 4) with (now st + 8) by lia;
        apply (Ht 8); lia).
  cbn [now world]. rewrite H3. cbv zeta.
  apply Z.eqb_eq in Hs. rewrite Hs. reflexivity.
Qed.

End Waiting.

(** ** What [HandleEvent] needs to know about its waits *)

Section WaitSummary.

Context {W : Type}.
Variable backend : Backend W.
Variable libs : Libs.

Lemma observe_app {A} (f : event -> option A) (a b : list event) :
  observe f (a ++ b) = observe f a ++ observe f b.
Proof.
  induction a as [|e a IH]; simpl; [reflexivity|].
  destruct (f e); simpl; rewrite IH; reflexivity.
Qed.

Lemma observe_wait {A} (f : event -> option A) (tr : list event) :
  (forall e, is_wait e = true -> f e = None) ->
  Forall (fun e => is_wait e = true) tr ->
  observe f tr = [].
Proof.
  intros Hf. induction 1 as [|e tr He _ IH]; simpl; [reflexivity|].
  now rewrite (Hf e He).
Qed.

Lemma steps_wait (tr : list event) :
  Forall (fun e => is_wait e = true) tr -> steps tr = [].
Proof.
  apply observe_wait. intros e; destruct e; simpl; congruence.
Qed.

Lemma gas_prices_wait (tr : list event) :
  Forall (fun e => is_wait e = true) tr -> gas_prices tr = [].
Proof.
  apply observe_wait. intros e; destruct e; simpl; congruence.
Qed.

Lemma balances_wait (tr : list event) :
  Forall (fun e => is_wait e = true) tr -> balances tr = [].
Proof.
  apply observe_wait. intros e; destruct e; simpl; congruence.
Qed.

Lemma polled_wait_events ctx txHash t tr r t' :
  polled libs ctx txHash t tr r t' -> Forall (fun e => is_wait e = true) tr.
Proof. induction 1; repeat constructor; auto. Qed.

Lemma waitForTx_wait_events ctx txHash fuel st r st' tr :
  waitForTx backend libs ctx txHash fuel st = (r, st', tr) ->
  Forall (fun e => is_wait e = true) tr.
Proof.
  intros Hrun. destruct (Commit backend) as [commit|] eqn:Hc.
  - rewrite (waitForTx_commit_eq backend libs ctx txHash fuel st commit Hc)
      in Hrun.
    inversion Hrun; subst. repeat constructor.
  - eapply polled_wait_events. eapply waitForTx_polling; eauto.
Qed.

Lemma polled_failures ctx txHash t tr r t' :
  Commit backend = None ->
  polled libs ctx txHash t tr r t' ->
  match r with
  | Some (Some _) =>
      exists pre e, tr = pre ++ [e] /\ failed backend libs e = true /\
                    Forall (fun e => failed backend libs e = false) pre
  | _ => Forall (fun e => failed backend libs e = false) tr
  end.
Proof.
  intros Hc. induction 1.
  - constructor.
  - exists [], (EvDone t (Z.max t c)). repeat split; auto.
  - assert (Hnf : failed backend libs
                    (EvReceipt (t + 4) txHash (inl NotFound)) = false)
      by (simpl; now rewrite Hc).
    destruct r as [[err|]|].
    + destruct IHpolled as (pre & e & -> & He & Hpre).
      exists (EvAfter t (t + 4) :: EvReceipt (t + 4) txHash (inl NotFound)
                :: pre), e.
      repeat split; auto.
    + repeat constructor; auto.
    + repeat constructor; auto.
  - exists [EvAfter t (t + 4)], (EvReceipt (t + 4) txHash (inl err)).
    repeat split; auto. simpl. rewrite Hc. now rewrite H0.
  - exists [EvAfter t (t + 4)], (EvReceipt (t + 4) txHash (inr rc)).
    repeat split; auto. simpl. apply Z.eqb_neq in H0. now rewrite H0.
  - repeat constructor. simpl. apply Z.eqb_eq in H0. now rewrite H0.
Qed.

(** A wait that returns an error ends on the event that failed; one that
    returns [nil], or is cut by the fuel bound, has no failed event. *)
Lemma waitForTx_failures ctx txHash fuel st r st' tr :
  waitForTx backend libs ctx txHash fuel st = (r, st', tr) ->
  match r with
  | Some (Some _) =>
      exists pre e, tr = pre ++ [e] /\ failed backend libs e = true /\
                    Forall (fun e => failed backend libs e = false) pre
  | _ => Forall (fun e => failed backend libs e = false) tr
  end.
Proof.
  intros Hrun. destruct (Commit backend) as [commit|] eqn:Hc.
  - rewrite (waitForTx_commit_eq backend libs ctx txHash fuel st commit Hc)
      in Hrun.
    inversion Hrun; subst; clear Hrun.
    destruct (fst (TransactionReceipt backend ctx txHash
                     (commit (world st)))) as [err|rc] eqn:Hr.
    + exists [EvCommit], (EvReceipt (now st) txHash (inl err)).
      repeat split; auto. simpl. now rewrite Hc.
    + destruct (Status rc =? ReceiptStatusSuccessful libs) eqn:Hs.
      * repeat constructor. simpl. now rewrite Hs.
      * exists [EvCommit], (EvReceipt (now st) txHash (inr rc)).
        repeat split; auto. simpl. now rewrite Hs.
  - eapply polled_failures; eauto. eapply waitForTx_polling; eauto.
Qed.

Lemma has_failure_app (a b : list event) :
  has_failure backend libs (a ++ b) =
  has_failure backend libs a || has_failure backend libs b.
Proof. apply existsb_app. Qed.

Lemma has_failure_none (tr : list event) :
  Forall (fun e => failed backend libs e = false) tr ->
  has_failure backend libs tr = false.
Proof.
  induction 1 as [|e tr He _ IH]; simpl; [reflexivity|].
  now rewrite He, IH.
Qed.

Lemma has_failure_in (tr : list event) (e : event) :
  In e tr -> failed backend libs e = true ->
  has_failure backend libs tr = true.
Proof.
  intros Hin He. apply existsb_exists. eauto.
Qed.

Lemma failfast_app_ok (a b : list event) :
  has_failure backend libs a = false ->
  failfast backend libs b ->
  failfast backend libs (a ++ b).
Proof.
  unfold has_failure.
  induction a as [|e a IH]; simpl; auto.
  intros Ha Hb. apply orb_false_iff in Ha. destruct Ha as [He Ha].
  split; auto. rewrite He. discriminate.
Qed.

Lemma failfast_last (pre : list event) (e : event) :
  has_failure backend libs pre = false ->
  failfast backend libs (pre ++ [e]).
Proof.
  intros H. apply failfast_app_ok; simpl; auto.
Qed.

Lemma failfast_ok (tr : list event) :
  has_failure backend libs tr = false ->
  failfast backend libs tr.
Proof.
  intros H. rewrite <- (app_nil_r tr). apply failfast_app_ok; simpl; auto.
Qed.

Lemma failfast_split (tr pre post : list event) (e : event) :
  failfast backend libs tr ->
  tr = pre ++ e :: post ->
  failed backend libs e = true ->
  post = [].
Proof.
  revert tr. induction pre as [|x pre IH]; intros tr Hf -> He; simpl in Hf.
  - now apply Hf.
  - eapply IH; [apply Hf | reflexivity | exact He].
Qed.

Lemma waitForTx_failfast ctx txHash fuel st r st' tr :
  waitForTx backend libs ctx txHash fuel st = (r, st', tr) ->
  failfast backend libs tr.
Proof.
  intros Hrun. apply waitForTx_failures in Hrun.
  destruct r as [[err|]|]; auto using failfast_ok, has_failure_none.
  destruct Hrun as (pre & e & -> & _ & Hpre).
  now apply failfast_last, has_failure_none.
Qed.

Lemma waitForTx_has_failure ctx txHash fuel st r st' tr :
  waitForTx backend libs ctx txHash fuel st = (r, st', tr) ->
  has_failure backend libs tr =
    match r with Some (Some _) => true | _ => false end.
Proof.
  intros Hrun. apply waitForTx_failures in Hrun.
  destruct r as [[err|]|]; auto using has_failure_none.
  destruct Hrun as (pre & e & -> & He & Hpre).
  rewrite has_failure_app, (has_failure_none _ Hpre). simpl.
  now rewrite He.
Qed.

End WaitSummary.

(** ** Running [HandleEvent] symbolically *)

Lemma enough_balance (x : Z) :
  negb (big.Cmp x (big.NewInt 0) =? 1) = false <-> 0 < x.
Proof.
  unfold big.Cmp, big.NewInt.
  destruct (x ?= 0) eqn:E; simpl; split; intros H; try discriminate;
    try reflexivity.
  - apply Z.compare_eq in E. lia.
  - rewrite Z.compare_lt_iff in E. lia.
  - rewrite Z.compare_gt_iff in E. lia.
Qed.

Lemma not_enough_balance (x : Z) :
  negb (big.Cmp x (big.NewInt 0) =? 1) = true <-> x <= 0.
Proof.
  pose proof (enough_balance x) as H.
  destruct (negb (big.Cmp x (big.NewInt 0) =? 1)); split; intros H';
    try reflexivity; try discriminate.
  - destruct (Z_lt_le_dec 0 x) as [Hlt|Hle]; auto.
    apply H in Hlt. discriminate.
  - assert (0 < x) by (apply H; reflexivity). lia.
Qed.

Lemma feeReserve_eq (gasPrice : Z) : feeReserve gasPrice = gasLimit * 2 * gasPrice.
Proof. reflexivity. Qed.

Lemma netBalance_eq (vaultBalance gasPrice : Z) :
  netBalance vaultBalance gasPrice = vaultBalance - gasLimit * 2 * gasPrice.
Proof. reflexivity. Qed.

Lemma primaryShare_eq (x : Z) : primaryShare x = x / 3.
Proof.
  unfold primaryShare, big.Div, int3, big.NewInt.
  change (Z.sgn 3) with 1. change (Z.abs 3) with 3. lia.
Qed.

Lemma secondaryShare_eq (x : Z) : secondaryShare x = 2 * primaryShare x.
Proof. unfold secondaryShare, primaryShare, big.Mul, int2, big.NewInt. lia. Qed.


(** The innermost scrutinee of the [match] at the head of a term. *)
Ltac head_scrutinee t :=
  lazymatch t with
  | context [match ?x with _ => _ end] => head_scrutinee x
  | _ => t
  end.

(** One step of the run in [H : HandleEvent ... = (r, st', tr)]: either the
    run is over, or the next call is split into its answers. *)
Ltac run_step H :=
  lazymatch type of H with
  | (_, _, _) = (_, _, _) => inversion H; subst; clear H
  | ?lhs = _ =>
      let x := head_scrutinee lhs in
      lazymatch x with
      | waitForTx _ _ _ _ _ _ =>
          let r := fresh "rw" in
          let s := fresh "sw" in
          let t := fresh "tw" in
          let E := fresh "Hwait" in
          destruct x as [[r s] t] eqn:E
      | _ => let E := fresh "Hcall" in destruct x eqn:E
      end;
      cbn [fst snd world now app From Value GasPrice GasLimit] in H
  end.

Ltac run H :=
  unfold HandleEvent, bind, call, ret, formatError, NewKeyedTransactor in H;
  repeat run_step H.

(** What is known of the traces of the waits of a run. *)
Ltac wait_facts :=
  repeat match goal with
  | H : waitForTx _ _ _ _ _ _ = (_, _, ?tw) |- _ =>
      let F := fresh "Hev" in
      pose proof (waitForTx_wait_events _ _ _ _ _ _ _ _ _ H) as F;
      pose proof (waitForTx_failfast _ _ _ _ _ _ _ _ _ H);
      pose proof (waitForTx_has_failure _ _ _ _ _ _ _ _ _ H);
      pose proof (steps_wait _ F);
      pose proof (gas_prices_wait _ F);
      pose proof (balances_wait _ F);
      clear H
  end.

(** Normal form of what a trace shows, given the facts on the waits. *)
Ltac norm :=
  unfold has_failure, steps, gas_prices, balances in *;
  repeat first
    [ progress cbn [existsb observe failed step_of suggested_gas_price
                    reported_balance app orb in_order] in *
    | rewrite existsb_app in *
    | rewrite observe_app in *
    | rewrite app_nil_r in *
    | match goal with
      | H : observe _ ?tw = [] |- _ => rewrite H in *
      | H : existsb _ ?tw = _ |- _ => rewrite H in *
      end ].

Ltac solve_failfast :=
  repeat first
    [ assumption
    | exact I
    | progress cbn [failfast failed]
    | split; [ intros; first [discriminate | reflexivity] | ]
    | apply failfast_app_ok; [assumption | ] ].

Section Handler.

Context {W : Type}.
Variable backend : Backend W.
Variable libs : Libs.

Lemma HandleEvent_fail_fast ctx event fuel st r st' tr :
  HandleEvent backend libs ctx event fuel st = (r, st', tr) ->
  failfast backend libs tr /\
  (has_failure backend libs tr = true -> exists err, r = Some (inl err)) /\
  ((exists err, r = Some (inl err)) ->
   has_failure backend libs tr = false -> steps tr = []) /\
  in_order (steps tr) = true.
Proof.
  intros H. run H; wait_facts; norm.
  all: split; [solve_failfast|].
  all: split; [first [discriminate | eauto] |].
  all: split; [first [reflexivity | discriminate
                     | intros [err Herr]; discriminate] | try reflexivity].
Qed.

Lemma in_has_failure pre e post :
  failed backend libs e = true ->
  has_failure backend libs (pre ++ e :: post) = true.
Proof.
  intros He. apply (has_failure_in backend libs _ e); auto.
  apply in_elt.
Qed.

(** ** Claims about [HandleEvent] *)

(** C3.  In every run of [HandleEvent] a failed event (a call that returned
    an error, a receipt with a bad status, a [select] that the context
    interrupted) is the last event of the run, and the run returns an error:
    nothing is called after it.  In particular, when the failure comes while
    the first transfer is the only submission made so far (it failed when
    submitted, or while [waitForTx] waited for it), the run has no other
    submission: no second transfer, no [SellVouchers], no [BuyVouchers].  A
    run that returns an error without a failed event (a key that does not
    parse, a balance that does not cover the fees) has submitted nothing;
    and submissions are always made in the order transfer, transfer, sell,
    buy. *)
Theorem failure_stops_the_run ctx event fuel st r st' tr :
  HandleEvent backend libs ctx event fuel st = (r, st', tr) ->
  (forall pre e post,
      tr = pre ++ e :: post ->
      failed backend libs e = true ->
      post = [] /\ exists err, r = Some (inl err)) /\
  (forall pre e post opts to,
      tr = pre ++ e :: post ->
      failed backend libs e = true ->
      steps (pre ++ [e]) = [StepTransfer opts to] ->
      steps tr = [StepTransfer opts to]) /\
  ((exists err, r = Some (inl err)) ->
   has_failure backend libs tr = false ->
   steps tr = []) /\
  in_order (steps tr) = true.
Proof.
  intros H.
  destruct (HandleEvent_fail_fast _ _ _ _ _ _ _ H) as (Hff & Herr & Hloc & Hord).
  assert (Hlast : forall pre e post,
             tr = pre ++ e :: post -> failed backend libs e = true ->
             post = []).
  { intros pre e post E He. eapply failfast_split; eauto. }
  repeat split; auto.
  - eapply Hlast; eauto.
  - subst tr. apply Herr. now apply in_has_failure.
  - intros pre e post opts to E He Hs.
    rewrite (Hlast _ _ _ E He) in E. now subst tr.
Qed.


(** C2.  In a run in which the chain suggested the gas price [P] and
    reported the vault balance [B], the result is the
    not-enough-balance error exactly when [B - gasLimit * 2 * P <= 0]
    (zero included); and then nothing has been submitted. *)
Theorem insufficient_funds_iff ctx event fuel st r st' tr B P :
  HandleEvent backend libs ctx event fuel st = (r, st', tr) ->
  gas_prices tr = [P] ->
  balances tr = [B] ->
  (r = Some (inl InsufficientFunds) <-> B - gasLimit * 2 * P <= 0) /\
  (r = Some (inl InsufficientFunds) -> steps tr = []).
Proof.
  intros H Hgas Hbal.
  run H; wait_facts; norm; try discriminate;
    injection Hgas as ->; injection Hbal as ->;
    match goal with
    | Hc : negb _ = true |- _ =>
        apply not_enough_balance in Hc; rewrite netBalance_eq in Hc
    | Hc : negb _ = false |- _ =>
        apply enough_balance in Hc; rewrite netBalance_eq in Hc
    end;
    unfold InsufficientFunds, fmt.Errorf;
    (split; [split|]); intros E; try reflexivity; try lia;
    try (exfalso; simpl in E; discriminate E).
Qed.

(** C5.  A run in which the chain suggested the gas price 10 and reported
    the balance 900000 reserves 420000 for fees, is left with 480000, and,
    when it succeeds, has submitted, in this order, a transfer of 160000
    and a transfer of 320000 from one sender, both with gas price 10 and
    gas limit 21000, then [SellVouchers] and [BuyVouchers] under one other
    key; the message
    it returns is the fixed text around the event's timestamp as
    [time.Time] prints it. *)
Theorem scenario_900000 ctx event fuel st msg st' tr :
  HandleEvent backend libs ctx event fuel st = (Some (inr msg), st', tr) ->
  gas_prices tr = [10] ->
  balances tr = [900000] ->
  gasLimit = 21000 /\
  feeReserve 10 = 420000 /\
  netBalance 900000 10 = 480000 /\
  primaryShare 480000 = 160000 /\
  secondaryShare 480000 = 320000 /\
  msg = SuccessMessage libs event /\
  exists vault tokenHolderContract deqode processing,
    steps tr =
      [StepTransfer {| From := vault; Value := Some 160000;
                       GasPrice := Some 10; GasLimit := 21000 |}
         tokenHolderContract;
       StepTransfer {| From := vault; Value := Some 320000;
                       GasPrice := Some 10; GasLimit := 21000 |}
         deqode;
       StepSellVouchers {| From := processing; Value := None;
                           GasPrice := None; GasLimit := 0 |};
       StepBuyVouchers {| From := processing; Value := None;
                          GasPrice := None; GasLimit := 0 |}].
Proof.
  intros H Hgas Hbal.
  repeat (split; [reflexivity|]).
  run H; wait_facts; norm; try discriminate.
  injection Hgas as ->; injection Hbal as ->.
  split; [reflexivity|].
  eexists _, _, _, _. reflexivity.
Qed.

End Handler.

(** ** Concrete runs *)

Module Runs.

Import Sim.
Local Open Scope string_scope.
Local Open Scope list_scope.
Local Open Scope Z_scope.

(** The claim of C4 as the specification words it, two intervals, fails on
    the scripted backend that answers [NotFound] twice and then a successful
    receipt: the wait returns [nil] after three intervals, that is 12 time
    units and not 8, whatever fuel beyond three iterations it is given. *)
Lemma two_intervals_are_not_enough :
  waitForTx (backend 10 900000 false not_found_twice) libs background 7 3
    start =
    (Some None, {| world := 3%nat; now := 12 |},
     [EvAfter 0 4; EvReceipt 4 7 (inl NotFound);
      EvAfter 4 8; EvReceipt 8 7 (inl NotFound);
      EvAfter 8 12; EvReceipt 12 7 (inr (ok_receipt 7))]) /\
  waitForTx (backend 10 900000 false not_found_twice) libs background 7 9
    start =
  waitForTx (backend 10 900000 false not_found_twice) libs background 7 3
    start /\
  12 - now start <> 2 * 4 /\
  intervals
    [EvAfter 0 4; EvReceipt 4 7 (inl NotFound);
     EvAfter 4 8; EvReceipt 8 7 (inl NotFound);
     EvAfter 8 12; EvReceipt 12 7 (inr (ok_receipt 7))] <> 2%nat.
Proof.
  split; [reflexivity|]. split; [reflexivity|].
  split; [vm_compute; discriminate | vm_compute; discriminate].
Qed.

Lemma confirmed_after_three_intervals_witness :
  Commit (backend 10 900000 false not_found_twice) = None /\
  waitForTx (backend 10 900000 false not_found_twice) libs background 7 3
    start =
    (Some None, {| world := 3%nat; now := 0 + 4 + 4 + 4 |},
     [EvAfter 0 (0 + 4); EvReceipt (0 + 4) 7 (inl NotFound);
      EvAfter (0 + 4) (0 + 4 + 4); EvReceipt (0 + 4 + 4) 7 (inl NotFound);
      EvAfter (0 + 4 + 4) (0 + 4 + 4 + 4);
      EvReceipt (0 + 4 + 4 + 4) 7 (inr (ok_receipt 7))]) /\
  0 + 4 + 4 + 4 = 0 + 3 * 4.
Proof.
  split; [reflexivity|].
  destruct (confirmed_after_three_intervals
              (backend 10 900000 false not_found_twice) libs background 7 3
              start 1%nat 2%nat 3%nat (ok_receipt 7)
              eq_refl I eq_refl eq_refl eq_refl eq_refl (le_n 3))
    as (Hrun & _ & Ht).
  split; [exact Hrun | exact Ht].
Defined.

Lemma waitForTx_with_Commit_witness :
  Commit (backend 10 900000 true reverted) = Some (fun w => w) /\
  waitForTx (backend 10 900000 true reverted) libs background 7 0 start =
    (Some (Some (tx_failed libs (bad_receipt 7))),
     {| world := 1%nat; now := 0 |},
     [EvCommit; EvReceipt 0 7 (inr (bad_receipt 7))]).
Proof.
  split; [reflexivity|].
  destruct (waitForTx_with_Commit (backend 10 900000 true reverted) libs
              background 7 0 start (fun w => w) eq_refl)
    as (reply & w' & Hreply & Hrun & Hbad).
  vm_compute in Hreply. injection Hreply as <- <-.
  exact Hrun.
Defined.

Lemma failed_receipt_ends_wait_witness :
  waitForTx (backend 10 900000 false reverted) libs background 7 1 start =
    (Some (Some (tx_failed libs (bad_receipt 7))),
     {| world := 1%nat; now := 4 |},
     [EvAfter 0 4] ++ EvReceipt 4 7 (inr (bad_receipt 7)) :: []) /\
  Status (bad_receipt 7) <> ReceiptStatusSuccessful libs /\
  Error (tx_failed libs (bad_receipt 7)) =
    String.append "tx failed: " (Receipt_String libs (bad_receipt 7)).
Proof.
  split; [reflexivity|].
  split; [vm_compute; discriminate|].
  apply (failed_receipt_ends_wait (backend 10 900000 false reverted) libs
           background 7 1 start
           (Some (Some (tx_failed libs (bad_receipt 7))))
           {| world := 1%nat; now := 4 |}
           ([EvAfter 0 4] ++ EvReceipt 4 7 (inr (bad_receipt 7)) :: [])
           [EvAfter 0 4] 4 7 (bad_receipt 7) []).
  - reflexivity.
  - reflexivity.
  - vm_compute; discriminate.
Defined.


Lemma every_query_follows_a_full_interval_witness :
  Commit (backend 10 900000 false not_found_twice) = None /\
  exists st' tr,
    waitForTx (backend 10 900000 false not_found_twice) libs background 7 3
      start = (Some None, st', tr) /\
    now st' = now start + 4 * (Z.of_nat (not_found_replies tr) + 1).
Proof.
  split; [reflexivity|].
  eexists _, _. split; [reflexivity|].
  destruct (every_query_follows_a_full_interval
              (backend 10 900000 false not_found_twice) libs background 7 3
              start _ _ _ eq_refl eq_refl) as (_ & _ & Hend).
  exact (proj2 (Hend [EvAfter 0 4; EvReceipt 4 7 (inl NotFound);
                      EvAfter 4 8; EvReceipt 8 7 (inl NotFound);
                      EvAfter 8 12] 12 7 (ok_receipt 7) eq_refl)).
Defined.

Lemma cancellation_ends_wait_witness :
  Commit (backend 10 900000 false never_found) = None /\
  done_at (cancelled_at 6) = Some 6 /\
  (1 <= 5)%nat /\
  6 < now start + 4 * Z.of_nat 5 /\
  exists r st' tr,
    waitForTx (backend 10 900000 false never_found) libs (cancelled_at 6)
      7 5 start = (Some r, st', tr) /\
    (forall t h a, In (EvReceipt t h a) tr -> t <= 6).
Proof.
  split; [reflexivity|]. split; [reflexivity|].
  split; [lia|]. split; [reflexivity|].
  destruct (cancellation_ends_wait
              (backend 10 900000 false never_found) libs (cancelled_at 6) 6
              7 5 start eq_refl eq_refl) as (r & st' & tr & Hrun & Hq & _).
  - lia.
  - reflexivity.
  - exists r, st', tr. split; [exact Hrun | exact Hq].
Defined.


Lemma insufficient_funds_iff_witness :
  exists st' tr,
    HandleEvent (backend 10 420000 false always_ok) libs background tick 1
      start = (Some (inl InsufficientFunds), st', tr) /\
    gas_prices tr = [10] /\
    balances tr = [420000] /\
    420000 - gasLimit * 2 * 10 <= 0 /\
    steps tr = [].
Proof.
  eexists _, _. split; [reflexivity|].
  split; [reflexivity|]. split; [reflexivity|].
  destruct (insufficient_funds_iff
              (backend 10 420000 false always_ok) libs background tick 1
              start _ _ _ 420000 10 eq_refl eq_refl eq_refl)
    as ((Hto & _) & Hnone).
  split; [exact (Hto eq_refl) | exact (Hnone eq_refl)].
Defined.

Lemma failure_stops_the_run_witness :
  exists r st' tr opts to,
    HandleEvent (backend 10 900000 false reverted) libs background tick 1
      start = (r, st', tr) /\
    failed (backend 10 900000 false reverted) libs
      (EvReceipt 4 106 (inr (bad_receipt 106))) = true /\
    steps tr = [StepTransfer opts to] /\
    in_order (steps tr) = true.
Proof.
  eexists _, _, _, _, _. split; [reflexivity|].
  split; [reflexivity|].
  destruct (failure_stops_the_run
              (backend 10 900000 false reverted) libs background tick 1
              start _ _ _ eq_refl) as (_ & Hfirst & _ & Hord).
  split; [|exact Hord].
  refine (Hfirst
            [EvParse (inr cfg); EvDial "http://localhost:8545" None;
             EvSuggestGasPrice (inr 10); EvBalanceAt 2 (inr 900000);
             EvTransfer _ 6 (inr 106); EvAfter 0 4]
            (EvReceipt 4 106 (inr (bad_receipt 106))) [] _ _
            eq_refl eq_refl eq_refl).
Defined.

Lemma scenario_900000_witness :
  exists msg st' tr,
    HandleEvent (backend 10 900000 false always_ok) libs background tick 1
      start = (Some (inr msg), st', tr) /\
    gas_prices tr = [10] /\
    balances tr = [900000] /\
    msg = SuccessMessage libs tick /\
    steps tr =
      [StepTransfer {| From := 2; Value := Some 160000;
                       GasPrice := Some 10; GasLimit := 21000 |} 6;
       StepTransfer {| From := 2; Value := Some 320000;
                       GasPrice := Some 10; GasLimit := 21000 |} 4;
       StepSellVouchers {| From := 3; Value := None;
                           GasPrice := None; GasLimit := 0 |};
       StepBuyVouchers {| From := 3; Value := None;
                          GasPrice := None; GasLimit := 0 |}].
Proof.
  eexists _, _, _. split; [reflexivity|].
  split; [reflexivity|]. split; [reflexivity|].
  destruct (scenario_900000
              (backend 10 900000 false always_ok) libs background tick 1
              start _ _ _ eq_refl eq_refl eq_refl)
    as (_ & _ & _ & _ & _ & Hmsg & _).
  split; [exact Hmsg | reflexivity].
Defined.

End Runs.

(** * Further properties *)

(** ** More about [waitForTx] *)

Section MoreWaiting.

Context {W : Type}.
Variable backend : Backend W.
Variable libs : Libs.

Lemma intervals_app (a b : list event) :
  intervals (a ++ b) = (intervals a + intervals b)%nat.
Proof. unfold intervals. now rewrite filter_app, length_app. Qed.

Lemma receipt_queries_app (a b : list event) :
  receipt_queries (a ++ b) = receipt_queries a ++ receipt_queries b.
Proof. apply filter_app. Qed.

Lemma polled_confirmed_last ctx txHash t tr r t' :
  polled libs ctx txHash t tr r t' ->
  r = Some None ->
  exists pre rc,
    tr = pre ++ [EvReceipt t' txHash (inr rc)] /\
    Status rc = ReceiptStatusSuccessful libs.
Proof.
  induction 1; intros E; try discriminate.
  - destruct (IHpolled E) as (pre & rc & -> & Hs).
    exists (EvAfter t (t + 4) :: EvReceipt (t + 4) txHash (inl NotFound)
              :: pre), rc. auto.
  - exists [EvAfter t (t + 4)], rc. auto.
Qed.

Lemma polled_hash ctx txHash t tr r t' :
  polled libs ctx txHash t tr r t' ->
  forall t1 h a, In (EvReceipt t1 h a) tr -> h = txHash.
Proof.
  induction 1; intros t1 h a Hin; simpl in Hin;
    repeat match goal with
    | H : _ \/ _ |- _ => destruct H
    | H : False |- _ => contradiction
    | H : _ = EvReceipt _ _ _ |- _ => inversion H; subst; clear H
    end; eauto.
Qed.

Lemma polled_query_count ctx txHash t tr r t' c :
  polled libs ctx txHash t tr r t' ->
  done_at ctx = Some c ->
  receipt_queries tr = [] \/
  t + 4 * Z.of_nat (List.length (receipt_queries tr)) <= c.
Proof.
  induction 1; intros Hc; cbn [receipt_queries filter is_receipt]; auto;
    unfold timer_first in *; rewrite Hc in H; right;
    cbn [List.length].
  - destruct (IHpolled Hc) as [E | Hle].
    + unfold receipt_queries in E. rewrite E. simpl. lia.
    + unfold receipt_queries in Hle. lia.
  - lia.
  - lia.
  - lia.
Qed.

Lemma polled_elapsed ctx txHash t tr r t' :
  polled libs ctx txHash t tr r t' ->
  List.length (receipt_queries tr) = intervals tr /\
  t + 4 * Z.of_nat (intervals tr) <= t' /\
  ((forall t1 t2, ~ In (EvDone t1 t2) tr) ->
   t' = t + 4 * Z.of_nat (intervals tr)).
Proof.
  induction 1; cbn [receipt_queries intervals filter is_receipt List.length].
  - repeat split; try lia.
  - repeat split; try lia. intros Hn. exfalso. eapply Hn. left. reflexivity.
  - destruct IHpolled as (Hq & Hle & Heq).
    unfold receipt_queries, intervals in *.
    repeat split; try lia.
    intros Hn. rewrite Heq; [lia|].
    intros t1 t2 Hin. eapply Hn. right. right. exact Hin.
  - repeat split; lia.
  - repeat split; lia.
  - repeat split; lia.
Qed.

Lemma polled_confirmed_intervals ctx txHash t tr t' :
  polled libs ctx txHash t tr (Some None) t' ->
  (1 <= intervals tr)%nat /\ t' = t + 4 * Z.of_nat (intervals tr).
Proof.
  remember (Some None) as r eqn:E. induction 1; try discriminate;
    cbn [intervals filter List.length].
  - destruct (IHpolled E) as (H1 & ->). unfold intervals in *. split; lia.
  - split; lia.
Qed.

Lemma polled_deadline ctx txHash t tr r t' c :
  polled libs ctx txHash t tr r t' ->
  done_at ctx = Some c ->
  t' <= Z.max t c.
Proof.
  induction 1; intros Hc; unfold timer_first in *.
  - lia.
  - rewrite H in Hc. injection Hc as ->. lia.
  - rewrite Hc in H. specialize (IHpolled Hc). lia.
  - rewrite Hc in H. lia.
  - rewrite Hc in H. lia.
  - rewrite Hc in H. lia.
Qed.

(** X1.  [waitForTx] returns [nil] only when the last thing it did was to
    receive, for the hash it was given, a receipt whose status is the
    successful one; and it never asks for the receipt of another hash. *)
Theorem nil_only_on_successful_receipt ctx txHash fuel st r st' tr :
  waitForTx backend libs ctx txHash fuel st = (r, st', tr) ->
  (r = Some None ->
   exists pre rc,
     tr = pre ++ [EvReceipt (now st') txHash (inr rc)] /\
     Status rc = ReceiptStatusSuccessful libs) /\
  (forall t h a, In (EvReceipt t h a) tr -> h = txHash).
Proof.
  intros Hrun. destruct (Commit backend) as [commit|] eqn:Hc.
  - rewrite (waitForTx_commit_eq backend libs ctx txHash fuel st commit Hc)
      in Hrun.
    inversion Hrun; subst; clear Hrun. split.
    + destruct (fst (TransactionReceipt backend ctx txHash
                       (commit (world st)))) as [err|rc]; [discriminate|].
      destruct (Status rc =? ReceiptStatusSuccessful libs) eqn:Hs;
        [|discriminate].
      intros _. exists [EvCommit], rc. split; [reflexivity|].
      now apply Z.eqb_eq.
    + intros t h a [E | [E | []]]; inversion E; reflexivity.
  - apply waitForTx_polling in Hrun; auto. split.
    + eapply polled_confirmed_last; eauto.
    + eapply polled_hash; eauto.
Qed.

(** X2.  The loop has no bound of its own: without [Commit], with a context
    that is never done and a backend that answers [NotFound] to every
    query for the hash, no number of iterations makes [waitForTx] return;
    after [n] iterations it has asked [n] times and [4 * n] time units have
    passed. *)
Theorem polling_never_gives_up ctx txHash :
  Commit backend = None ->
  done_at ctx = None ->
  (forall w, fst (TransactionReceipt backend ctx txHash w) = inl NotFound) ->
  forall fuel st, exists st' tr,
    waitForTx backend libs ctx txHash fuel st = (None, st', tr) /\
    now st' = now st + 4 * Z.of_nat fuel /\
    List.length (receipt_queries tr) = fuel.
Proof.
  intros Hc Hd Hnf fuel. unfold waitForTx. rewrite Hc.
  induction fuel as [|fuel IH]; intros st.
  - exists st, []. simpl. repeat split. lia.
  - rewrite poll_S_timer by (unfold timer_first; now rewrite Hd).
    specialize (Hnf (Elapse backend 4 (world st))).
    destruct (TransactionReceipt backend ctx txHash
                (Elapse backend 4 (world st))) as [reply w'].
    simpl in Hnf. subst reply. cbn [is_NotFound]. cbv zeta.
    destruct (IH {| world := w'; now := now st + 4 |}) as (st' & tr & E & Ht & Hn).
    rewrite E. eexists _, _. split; [reflexivity|].
    cbn [now] in Ht. split; [lia|].
    cbn [app receipt_queries filter is_receipt List.length].
    unfold receipt_queries in Hn. now rewrite Hn.
Qed.

(** X3.  Without [Commit], a context that is done at instant [c] bounds the
    number of receipt queries of a wait entered at instant [t]: [n] queries
    need [t + 4 * n <= c].  None is made when [c] is less than 4 time units
    away. *)
Theorem deadline_bounds_queries ctx c txHash fuel st r st' tr :
  Commit backend = None ->
  done_at ctx = Some c ->
  waitForTx backend libs ctx txHash fuel st = (r, st', tr) ->
  receipt_queries tr = [] \/
  now st + 4 * Z.of_nat (List.length (receipt_queries tr)) <= c.
Proof.
  intros Hc Hd Hrun. apply waitForTx_polling in Hrun; auto.
  eapply polled_query_count; eauto.
Qed.

(** X4.  Without [Commit], a wait makes as many receipt queries as timer
    intervals ran in full; the clock never runs backwards; and a wait the
    context did not interrupt has taken exactly 4 time units for each
    query. *)
Theorem wait_time_is_four_per_query ctx txHash fuel st r st' tr :
  Commit backend = None ->
  waitForTx backend libs ctx txHash fuel st = (r, st', tr) ->
  List.length (receipt_queries tr) = intervals tr /\
  now st + 4 * Z.of_nat (intervals tr) <= now st' /\
  ((forall t1 t2, ~ In (EvDone t1 t2) tr) ->
   now st' = now st + 4 * Z.of_nat (List.length (receipt_queries tr))).
Proof.
  intros Hc Hrun. apply waitForTx_polling in Hrun; auto.
  destruct (polled_elapsed _ _ _ _ _ _ Hrun) as (Hq & Hle & Heq).
  repeat split; auto. rewrite Hq. exact Heq.
Qed.

Lemma waitForTx_expired ctx c txHash fuel st :
  Commit backend = None ->
  done_at ctx = Some c ->
  c <= now st ->
  (1 <= fuel)%nat ->
  waitForTx backend libs ctx txHash fuel st =
    (Some (Some (ctx_err ctx)),
     {| world := Elapse backend 0 (world st); now := now st |},
     [EvDone (now st) (now st)]).
Proof.
  intros Hc Hd Hle Hf. unfold waitForTx. rewrite Hc.
  destruct fuel as [|fuel]; [lia|]. simpl. unfold bind, select_Done_After.
  rewrite Hd.
  replace (c <? now st + 4) with true by (symmetry; apply Z.ltb_lt; lia).
  cbn [orb]. rewrite Z.max_l by lia. rewrite Z.sub_diag. reflexivity.
Qed.

(** X5.  Without [Commit], a wait entered when the context is already done
    fails at once with [ctx.Err()]: no receipt query, no time spent. *)
Theorem expired_context_fails_at_once ctx c txHash fuel st :
  Commit backend = None ->
  done_at ctx = Some c ->
  c <= now st ->
  (1 <= fuel)%nat ->
  waitForTx backend libs ctx txHash fuel st =
    (Some (Some (ctx_err ctx)),
     {| world := Elapse backend 0 (world st); now := now st |},
     [EvDone (now st) (now st)]).
Proof. apply waitForTx_expired. Qed.

End MoreWaiting.

(** ** More about [HandleEvent] *)

(** Apply [tac] to each of the waits of a run. *)
Ltac with_waits tac :=
  repeat match goal with
  | H : waitForTx _ _ _ _ _ _ = (_, _, _) |- _ => tac H; revert H
  end;
  intros.

(** Normal form of what a trace shows, for the vocabulary added above. *)
Ltac norm_more :=
  unfold has_failure, steps, gas_prices, balances, configs, balance_queries,
    receipt_queries, intervals in *;
  repeat first
    [ progress cbn [existsb observe failed step_of suggested_gas_price
                    reported_balance parsed_config asked_balance app orb
                    filter is_receipt is_select is_commit List.length] in *
    | rewrite existsb_app in *
    | rewrite observe_app in *
    | rewrite filter_app in *
    | rewrite length_app in *
    | rewrite app_nil_r in *
    | match goal with
      | H : observe _ ?tw = [] |- _ => rewrite H in *
      | H : existsb _ ?tw = _ |- _ => rewrite H in *
      | H : filter _ ?tw = [] |- _ => rewrite H in *
      end ].


Section MoreHandler.

Context {W : Type}.
Variable backend : Backend W.
Variable libs : Libs.

Lemma configs_wait (tr : list event) :
  Forall (fun e => is_wait e = true) tr -> configs tr = [].
Proof.
  apply observe_wait. intros e; destruct e; simpl; congruence.
Qed.

Lemma balance_queries_wait (tr : list event) :
  Forall (fun e => is_wait e = true) tr -> balance_queries tr = [].
Proof.
  apply observe_wait. intros e; destruct e; simpl; congruence.
Qed.

(** What the waits of a run contribute to what its trace shows: nothing. *)
Ltac quiet_wait H :=
  let F := fresh "Hev" in
  pose proof (waitForTx_wait_events _ _ _ _ _ _ _ _ _ H) as F;
  pose proof (steps_wait _ F);
  pose proof (gas_prices_wait _ F);
  pose proof (balances_wait _ F);
  pose proof (configs_wait _ F);
  pose proof (balance_queries_wait _ F);
  pose proof (waitForTx_has_failure _ _ _ _ _ _ _ _ _ H);
  clear F.

Lemma uint64_gasLimit : uint64 gasLimit = 21000.
Proof. reflexivity. Qed.

(** X6.  In a run that read the configuration [cfg], the gas price [P] and
    the balance [B], both keys of [cfg] parsed; the balance asked was that
    of the address of the vault key; and what was submitted is an initial
    part of the plan: a third of the net balance from the vault to the
    token-holder contract address of [cfg], twice that from the vault to the
    other address of [cfg], both at gas price [P] with gas limit 21000, then
    [SellVouchers] and [BuyVouchers] under the processing key.  A run that
    succeeds has submitted the whole plan. *)
Theorem submissions_follow_the_plan ctx event fuel st r st' tr cfg P B :
  HandleEvent backend libs ctx event fuel st = (r, st', tr) ->
  configs tr = [cfg] ->
  gas_prices tr = [P] ->
  balances tr = [B] ->
  exists vaultKey processingKey,
    HexToECDSA libs (config.deqodeVaultPrivateKey cfg) = inr vaultKey /\
    HexToECDSA libs (config.TokenHolderProcessingKey cfg) =
      inr processingKey /\
    balance_queries tr = [PubkeyToAddress libs (PublicKey vaultKey)] /\
    (exists n,
        steps tr = firstn n (plan libs cfg vaultKey processingKey P B)) /\
    (forall msg, r = Some (inr msg) ->
        steps tr = plan libs cfg vaultKey processingKey P B).
Proof.
  intros H Hcfg Hgas Hbal.
  run H; with_waits quiet_wait; norm_more; try discriminate;
    injection Hcfg as ->; injection Hgas as ->; injection Hbal as ->;
    eexists _, _;
    (split; [eassumption|]); (split; [eassumption|]);
    (split; [reflexivity|]);
    (split; [| intros msg Hmsg; first [discriminate Hmsg | reflexivity]]).
  all: first [ exists 0%nat; reflexivity | exists 1%nat; reflexivity
             | exists 2%nat; reflexivity | exists 3%nat; reflexivity
             | exists 4%nat; reflexivity ].
Qed.

(** X7.  In a run that read the gas price [P], not negative, and the balance
    [B], the submissions made can never take more than [B] from the vault,
    fees at the gas limit included: the fee reserve covers the two
    transfers. *)
Theorem transfers_never_exceed_the_balance ctx event fuel st r st' tr P B :
  HandleEvent backend libs ctx event fuel st = (r, st', tr) ->
  gas_prices tr = [P] ->
  balances tr = [B] ->
  0 <= P ->
  steps tr = [] \/ total_outlay (steps tr) <= B.
Proof.
  intros H Hgas Hbal HP.
  run H; with_waits quiet_wait; norm_more; try discriminate;
    try (left; reflexivity);
    injection Hgas as ->; injection Hbal as ->; right;
    match goal with
    | Hc : negb _ = false |- _ =>
        apply enough_balance in Hc; rewrite netBalance_eq in Hc
    end;
    cbn [total_outlay outlay Value GasPrice GasLimit];
    rewrite ?uint64_gasLimit, ?netBalance_eq, ?secondaryShare_eq,
      ?primaryShare_eq;
    pose proof (Z.mul_div_le (B - gasLimit * 2 * P) 3);
    pose proof (Z.div_pos (B - gasLimit * 2 * P) 3);
    unfold gasLimit in *; lia.
Qed.

(** X8.  In a run that read the gas price [P] and the balance [B] and
    submitted both transfers, what the balance exceeds the two transfers
    by, fees at the gas limit included, is the remainder of the net balance
    modulo 3: never more than 2. *)
Theorem undistributed_remainder ctx event fuel st r st' tr P B s1 s2 rest :
  HandleEvent backend libs ctx event fuel st = (r, st', tr) ->
  gas_prices tr = [P] ->
  balances tr = [B] ->
  steps tr = s1 :: s2 :: rest ->
  B - total_outlay (steps tr) = (B - gasLimit * 2 * P) mod 3 /\
  0 <= B - total_outlay (steps tr) < 3.
Proof.
  intros H Hgas Hbal Hsteps.
  assert (Hmod : forall x, 0 <= x mod 3 < 3)
    by (intros x; apply Z.mod_pos_bound; lia).
  run H; with_waits quiet_wait; norm_more; try discriminate;
    injection Hgas as ->; injection Hbal as ->;
    cbn [total_outlay outlay Value GasPrice GasLimit NewKeyedTransactor];
    rewrite ?uint64_gasLimit, ?netBalance_eq, ?secondaryShare_eq,
      ?primaryShare_eq;
    specialize (Hmod (B - gasLimit * 2 * P));
    rewrite Z.mod_eq in * by lia;
    unfold gasLimit in *; lia.
Qed.

(** X9.  Both keys are parsed before any balance is asked and before
    anything is submitted: a run whose configuration has a vault key or a
    processing key that does not parse returns an error without having
    asked a balance or submitted anything. *)
Theorem keys_are_checked_before_funds_move
  ctx event fuel st r st' tr cfg e :
  HandleEvent backend libs ctx event fuel st = (r, st', tr) ->
  configs tr = [cfg] ->
  HexToECDSA libs (config.deqodeVaultPrivateKey cfg) = inl e \/
  HexToECDSA libs (config.TokenHolderProcessingKey cfg) = inl e ->
  balance_queries tr = [] /\ steps tr = [] /\ exists err, r = Some (inl err).
Proof.
  intros H Hcfg Hkey.
  run H; with_waits quiet_wait; norm_more; try discriminate;
    injection Hcfg as ->;
    try (destruct Hkey as [Hkey | Hkey]; congruence);
    repeat split; eauto.
Qed.

Lemma ends_with_nil (x : string) : ends_with (String.append x EmptyString) x.
Proof. exists EmptyString. now rewrite append_nil_r. Qed.

Lemma ends_with_cons (c : ascii) (s x : string) :
  ends_with s x -> ends_with (String c s) x.
Proof. intros [l ->]. exists (String c l). reflexivity. Qed.

Lemma append_assoc (a b c : string) :
  String.append (String.append a b) c = String.append a (String.append b c).
Proof. induction a; simpl; congruence. Qed.

Lemma ends_with_app (a s x : string) :
  ends_with s x -> ends_with (String.append a s) x.
Proof.
  intros [l ->]. exists (String.append a l). now rewrite append_assoc.
Qed.

Ltac solve_ends_with :=
  cbn [Error fmt.Errorf fmt.Sprintf];
  repeat first
    [ apply ends_with_nil | apply ends_with_cons | apply ends_with_app ].

Lemma last_single {A} (Q : A -> Prop) (e : A) :
  Q e -> exists pre e', [e] = pre ++ [e'] /\ Q e'.
Proof. intros H. exists [], e. auto. Qed.

Lemma last_cons {A} (Q : A -> Prop) (x : A) (l : list A) :
  (exists pre e, l = pre ++ [e] /\ Q e) ->
  exists pre e, x :: l = pre ++ [e] /\ Q e.
Proof. intros (pre & e & -> & H). exists (x :: pre), e. auto. Qed.

Lemma last_app {A} (Q : A -> Prop) (a l : list A) :
  (exists pre e, l = pre ++ [e] /\ Q e) ->
  exists pre e, a ++ l = pre ++ [e] /\ Q e.
Proof.
  intros (pre & e & -> & H). exists (a ++ pre), e. now rewrite app_assoc.
Qed.

Lemma polled_cause ctx txHash t tr err t' :
  Commit backend = None ->
  polled libs ctx txHash t tr (Some (Some err)) t' ->
  exists pre e, tr = pre ++ [e] /\
                (failed backend libs e = true /\
                 cause_of libs ctx e = Some err).
Proof.
  intros Hc. remember (Some (Some err)) as r eqn:E.
  induction 1; try discriminate.
  - injection E as <-. refine (last_single _ _ _). auto.
  - refine (last_cons _ _ _ _). refine (last_cons _ _ _ _). auto.
  - injection E as <-. refine (last_cons _ _ _ _). refine (last_single _ _ _).
    simpl. rewrite Hc, H0. auto.
  - injection E as <-. refine (last_cons _ _ _ _). refine (last_single _ _ _).
    simpl. apply Z.eqb_neq in H0. rewrite H0. auto.
Qed.

(** A wait that returns an error ends on the event that carries it. *)
Lemma waitForTx_cause ctx txHash fuel st err st' tr :
  waitForTx backend libs ctx txHash fuel st = (Some (Some err), st', tr) ->
  exists pre e, tr = pre ++ [e] /\
                (failed backend libs e = true /\
                 cause_of libs ctx e = Some err).
Proof.
  intros Hrun. destruct (Commit backend) as [commit|] eqn:Hc.
  - rewrite (waitForTx_commit_eq backend libs ctx txHash fuel st commit Hc)
      in Hrun.
    inversion Hrun as [[Hr Hst Htr]]; clear Hrun.
    refine (last_cons _ _ _ _). refine (last_single _ _ _). simpl.
    rewrite Hc.
    destruct (fst (TransactionReceipt backend ctx txHash
                     (commit (world st)))) as [e|rc].
    + injection Hr as ->. auto.
    + destruct (Status rc =? ReceiptStatusSuccessful libs);
        [discriminate|]. injection Hr as <-. auto.
  - eapply polled_cause; eauto. eapply waitForTx_polling; eauto.
Qed.

(** X10.  An error that [HandleEvent] returns after a failed event names
    its cause: the failed event is the last of the run, and the text of the
    returned error ends with the text of the error that the event carries
    (the error of the call, the [tx failed] error of a bad receipt, or
    [ctx.Err()]). *)
Theorem error_names_its_cause ctx event fuel st err st' tr :
  HandleEvent backend libs ctx event fuel st = (Some (inl err), st', tr) ->
  has_failure backend libs tr = true ->
  exists pre e,
    tr = pre ++ [e] /\
    (failed backend libs e = true /\
     exists cause,
       cause_of libs ctx e = Some cause /\
       ends_with (Error err) (Error cause)).
Proof.
  intros H Hf.
  run H;
    with_waits ltac:(fun H =>
      pose proof (waitForTx_has_failure _ _ _ _ _ _ _ _ _ H);
      try pose proof (waitForTx_cause _ _ _ _ _ _ _ H));
    norm_more; try discriminate;
    repeat match goal with
    | H : exists pre e, _ = pre ++ [e] /\ _ |- _ =>
        destruct H as (pre & e' & -> & He' & Hcause)
    end;
    repeat first
      [ refine (last_single _ _ _) | refine (last_cons _ _ _ _)
      | refine (last_app _ _ _ _)
      | exists (pre), e'; split; [reflexivity|] ];
    (split; [first [reflexivity | assumption] |]);
    eexists; (split; [first [reflexivity | eassumption] |]);
    solve_ends_with.
Qed.

End MoreHandler.

(** ** [HandleEvent] and time *)

Section HandlerTime.

Context {W : Type}.
Variable backend : Backend W.
Variable libs : Libs.

Lemma waitForTx_commit_facts ctx txHash fuel st commit r st' tr :
  Commit backend = Some commit ->
  waitForTx backend libs ctx txHash fuel st = (r, st', tr) ->
  (exists x, r = Some x) /\
  now st' = now st /\
  filter is_select tr = [] /\
  List.length (filter is_commit tr) = 1%nat /\
  List.length (filter is_receipt tr) = 1%nat.
Proof.
  intros Hc Hrun.
  rewrite (waitForTx_commit_eq backend libs ctx txHash fuel st commit Hc)
    in Hrun.
  inversion Hrun; subst. repeat split; eauto.
Qed.

(** X11.  With a backend that has [Commit], [HandleEvent] always returns,
    whatever bound is put on the polling loop: it never waits on the timer,
    no time passes, and it commits once for each receipt it asks. *)
Theorem with_Commit_the_run_never_waits
  ctx event fuel st commit r st' tr :
  Commit backend = Some commit ->
  HandleEvent backend libs ctx event fuel st = (r, st', tr) ->
  (exists x, r = Some x) /\
  now st' = now st /\
  filter is_select tr = [] /\
  List.length (filter is_commit tr) = List.length (receipt_queries tr).
Proof.
  intros Hc H.
  run H;
    with_waits ltac:(fun H =>
      let F := fresh "F" in
      pose proof (waitForTx_commit_facts _ _ _ _ _ _ _ _ Hc H)
        as ((? & F) & ? & ? & ? & ?);
      try discriminate F; clear F);
    cbn [now] in *; norm_more;
    repeat split; eauto; try congruence; try lia.
Qed.

Lemma waitForTx_deadline_facts ctx c txHash fuel st r st' tr :
  Commit backend = None ->
  done_at ctx = Some c ->
  (1 <= fuel)%nat ->
  waitForTx backend libs ctx txHash fuel st = (r, st', tr) ->
  now st <= now st' /\
  now st' <= Z.max (now st) c /\
  Forall (asked_by c) tr /\
  (c < now st + 4 * Z.of_nat fuel -> exists x, r = Some x).
Proof.
  intros Hc Hd Hf Hrun.
  pose proof (waitForTx_polling backend libs _ _ _ _ _ _ _ Hc Hrun) as Hp.
  destruct (polled_elapsed _ _ _ _ _ _ _ Hp) as (_ & Hle & _).
  repeat split.
  - lia.
  - eapply polled_deadline; eauto.
  - apply Forall_forall. intros e Hin. destruct e; simpl; auto.
    eapply polled_receipts_before; eauto.
  - intros Hlt.
    destruct (poll_returns backend libs ctx c txHash fuel st Hd Hf Hlt)
      as (x & st1 & tr1 & E).
    unfold waitForTx in Hrun. rewrite Hc, E in Hrun.
    inversion Hrun; eauto.
Qed.

Ltac solve_asked_by :=
  repeat first
    [ apply Forall_nil
    | apply Forall_cons; [exact I|]
    | apply Forall_app; split; [assumption|]
    | assumption ].

(** X12.  Without [Commit], a context that is done at instant [c] makes
    [HandleEvent] return, given room for the iterations that fit before
    [c]; no receipt is asked after [c], and the run is over by [c] (at once
    if [c] is past when it starts). *)
Theorem deadline_ends_the_run ctx c event fuel st :
  Commit backend = None ->
  done_at ctx = Some c ->
  (1 <= fuel)%nat ->
  c < now st + 4 * Z.of_nat fuel ->
  exists x st' tr,
    HandleEvent backend libs ctx event fuel st = (Some x, st', tr) /\
    (forall t h a, In (EvReceipt t h a) tr -> t <= c) /\
    now st' <= Z.max (now st) c.
Proof.
  intros Hc Hd Hf Hlt.
  destruct (HandleEvent backend libs ctx event fuel st) as [[r st'] tr] eqn:H.
  assert (Hall : (exists x, r = Some x) /\ Forall (asked_by c) tr /\
                 now st' <= Z.max (now st) c).
  { run H;
      with_waits ltac:(fun H =>
        pose proof (waitForTx_deadline_facts _ _ _ _ _ _ _ _ Hc Hd Hf H)
          as (? & ? & ? & ?));
      cbn [now] in *;
      repeat match goal with
      | F : _ -> exists x, Some _ = Some x |- _ => clear F
      | F : _ -> exists x, None = Some x |- _ =>
          exfalso; destruct F as [? F]; [lia | discriminate F]
      end;
      (split; [eauto|]); (split; [solve_asked_by | lia]). }
  destruct Hall as ((x & ->) & Hq & Ht).
  exists x, st', tr. repeat split; auto.
  intros t h a Hin. rewrite Forall_forall in Hq. exact (Hq _ Hin).
Qed.

(** X13.  Without [Commit], a run started when the context is already done
    never succeeds and never asks for a receipt, and no time passes; yet it
    goes as far as submitting the first transfer before it notices, in the
    wait that follows. *)
Theorem expired_context_never_succeeds ctx c event fuel st r st' tr :
  Commit backend = None ->
  done_at ctx = Some c ->
  c <= now st ->
  (1 <= fuel)%nat ->
  HandleEvent backend libs ctx event fuel st = (r, st', tr) ->
  (exists err, r = Some (inl err)) /\
  receipt_queries tr = [] /\
  (List.length (steps tr) <= 1)%nat /\
  now st' = now st /\
  (forall opts to, steps tr = [StepTransfer opts to] ->
   (exists pre err, tr = pre ++ [EvTransfer opts to (inl err)]) \/
   (exists pre, tr = pre ++ [EvDone (now st) (now st)])).
Proof.
  intros Hc Hd Hle Hf H.
  run H;
    with_waits ltac:(fun H =>
      match type of H with
      | waitForTx _ _ _ ?h _ ?s = _ =>
          try (rewrite (waitForTx_expired backend libs ctx c h fuel s Hc Hd
                          ltac:(cbn [now]; lia) Hf) in H;
               inversion H; subst)
      end);
    try discriminate;
    cbn [now] in *; norm_more;
    (split; [eauto|]); (split; [reflexivity|]); (split; [lia|]);
    (split; [reflexivity|]);
    intros opts to Hs; try discriminate Hs;
    injection Hs as <- <-;
    first [ left; eexists (_ :: _ :: _ :: _ :: []), _; reflexivity
          | right; eexists (_ :: _ :: _ :: _ :: _ :: []); reflexivity ].
Qed.

Lemma waitForTx_confirmed_time ctx txHash fuel st st' tr :
  Commit backend = None ->
  waitForTx backend libs ctx txHash fuel st = (Some None, st', tr) ->
  (1 <= intervals tr)%nat /\
  now st' = now st + 4 * Z.of_nat (intervals tr) /\
  List.length (receipt_queries tr) = intervals tr.
Proof.
  intros Hc Hrun. apply waitForTx_polling in Hrun; auto.
  destruct (polled_confirmed_intervals _ _ _ _ _ _ Hrun) as (H1 & H2).
  destruct (polled_elapsed _ _ _ _ _ _ _ Hrun) as (H3 & _).
  auto.
Qed.

(** X14.  Without [Commit], a run that succeeds has waited at least one
    full interval for each of its four transactions: it took 4 time units
    for each receipt it asked, and 16 at the least. *)
Theorem success_by_polling_takes_16 ctx event fuel st msg st' tr :
  Commit backend = None ->
  HandleEvent backend libs ctx event fuel st = (Some (inr msg), st', tr) ->
  now st' = now st + 4 * Z.of_nat (List.length (receipt_queries tr)) /\
  List.length (receipt_queries tr) = intervals tr /\
  now st + 16 <= now st'.
Proof.
  intros Hc H.
  run H;
    with_waits ltac:(fun H =>
      pose proof (waitForTx_confirmed_time _ _ _ _ _ _ Hc H)
        as (? & ? & ?));
    cbn [now] in *; norm_more.
  repeat split; lia.
Qed.

End HandlerTime.

(** ** [init] *)

Lemma prefix_append (p s : string) : String.prefix p (String.append p s) = true.
Proof.
  induction p as [|c p IH]; simpl; [now destruct s|].
  destruct (ascii_dec c c) as [_|Hn]; [exact IH | now elim Hn].
Qed.

Lemma length_append (p s : string) :
  String.length (String.append p s) = (String.length p + String.length s)%nat.
Proof. induction p; simpl; congruence. Qed.

Lemma substring_all (s : string) : substring 0 (String.length s) s = s.
Proof. induction s; simpl; congruence. Qed.

Lemma substring_append (p s : string) :
  substring (String.length p) (String.length s) (String.append p s) = s.
Proof. induction p; simpl; auto using substring_all. Qed.

Lemma TrimPrefix_append (p s : string) :
  strings.TrimPrefix (String.append p s) p = s.
Proof.
  unfold strings.TrimPrefix, strings.HasPrefix.
  rewrite prefix_append, length_append.
  replace (String.length p + String.length s - String.length p)%nat
    with (String.length s) by lia.
  apply substring_append.
Qed.

Section StartupProps.

Context {W : Type}.
Variable platform : Platform W.

Local Open Scope string_scope.
Local Open Scope list_scope.

Lemma set_parameters_spec path parameters : forall w,
  exists r tr,
    set_parameters platform path parameters w =
      (r, setenv_all platform (map (rename platform path) (readable parameters)) w,
       tr) /\
    setenvs tr = map (rename platform path) (readable parameters) /\
    (r = Returned /\ Forall (fun p => assignment p <> None) parameters \/
     r = Panicked /\ Exists (fun p => assignment p = None) parameters).
Proof.
  induction parameters as [|p rest IH]; intros w; simpl.
  - exists Returned, []. auto.
  - destruct p as [[[name|] [value|]]|]; simpl;
      try (exists Panicked, []; repeat split; right; split; auto;
           constructor; reflexivity).
    destruct (IH (os_Setenv platform (paramName platform path name) value w))
      as (r & tr & E & Hs & Hr).
    rewrite E. eexists _, _. split; [reflexivity|]. split.
    + simpl. now rewrite Hs.
    + destruct Hr as [[-> Hall] | [-> Hex]]; [left | right]; split; auto.
      constructor; auto. simpl. discriminate.
Qed.

(** X15.  [init] ends the process only when [SSM_PS_PATH] is set and either
    the session cannot be created or the parameters cannot be fetched; the
    exit status is then 1 and no variable has been set.  Without
    [SSM_PS_PATH] it returns without calling anything. *)
Theorem init_exits_only_on_failure w :
  (os_LookupEnv platform "SSM_PS_PATH" w = None ->
   init platform w = (Returned, w, [])) /\
  (forall code w' tr,
      init platform w = (Exited code, w', tr) ->
      code = 1 /\ setenvs tr = [] /\
      exists path,
        os_LookupEnv platform "SSM_PS_PATH" w = Some path /\
        ((exists err, session_NewSession platform w = (Some err, w')) \/
         (exists w1 err,
             session_NewSession platform w = (None, w1) /\
             ssm_GetParametersByPath platform path true w1 =
               (inl err, w')))) /\
  (forall path,
      os_LookupEnv platform "SSM_PS_PATH" w = Some path ->
      (exists err, fst (session_NewSession platform w) = Some err) \/
      (exists err,
          fst (ssm_GetParametersByPath platform path true
                 (snd (session_NewSession platform w))) = inl err) ->
      exists w' tr, init platform w = (Exited 1, w', tr)).
Proof.
  unfold init. split; [|split].
  - intros ->. reflexivity.
  - intros code w' tr.
    destruct (os_LookupEnv platform "SSM_PS_PATH" w) as [path|];
      [|discriminate].
    destruct (session_NewSession platform w) as [[err|] w1].
    { intros E; inversion E; subst. repeat split. exists path. eauto. }
    destruct (ssm_GetParametersByPath platform path true w1)
      as [[err|parameters] w2] eqn:Eg.
    { intros E; inversion E; subst. repeat split. exists path.
      split; [reflexivity|]. right. eauto. }
    destruct (set_parameters_spec path parameters w2)
      as (r & t & -> & _ & [[-> _] | [-> _]]); discriminate.
  - intros path -> Hfail.
    destruct (session_NewSession platform w) as [[err|] w1]; [eauto|].
    simpl in Hfail. destruct Hfail as [[err E] | [err E]]; [discriminate|].
    destruct (ssm_GetParametersByPath platform path true w1)
      as [[err'|parameters] w2]; [eauto | discriminate].
Qed.

(** X16.  When the session is created and the parameters are fetched, [init]
    calls [os.Setenv], in the order of the response, for the parameters
    that come before the first one with a [nil] pointer, each under the
    name [paramName] gives it and with its value as it is; it leaves the
    environment as these calls make it; and it returns when no parameter
    has a [nil] pointer, and panics on the first one otherwise. *)
Theorem init_sets_the_readable_parameters w path w1 parameters w2 :
  os_LookupEnv platform "SSM_PS_PATH" w = Some path ->
  session_NewSession platform w = (None, w1) ->
  ssm_GetParametersByPath platform path true w1 = (inr parameters, w2) ->
  exists r tr,
    init platform w =
      (r, setenv_all platform (map (rename platform path) (readable parameters)) w2,
       tr) /\
    setenvs tr = map (rename platform path) (readable parameters) /\
    (r = Returned /\ Forall (fun p => assignment p <> None) parameters \/
     r = Panicked /\ Exists (fun p => assignment p = None) parameters).
Proof.
  intros Hp Hs Hg. unfold init. rewrite Hp, Hs, Hg.
  destruct (set_parameters_spec path parameters w2) as (r & t & E & Hv & Hr).
  rewrite E. exists r. eexists. split; [reflexivity|]. split; auto.
Qed.

Lemma readable_all parameters :
  Forall (fun p => assignment p <> None) parameters ->
  forall nv, In nv (readable parameters) <->
             exists p, In p parameters /\ assignment p = Some nv.
Proof.
  induction 1 as [|p rest Hp _ IH]; intros nv; simpl.
  - split; [contradiction | intros (p & [] & _)].
  - destruct (assignment p) as [nv0|] eqn:E; [|contradiction].
    simpl. rewrite IH. split.
    + intros [<- | (q & Hq & Ha)]; eauto.
    + intros (q & [<- | Hq] & Ha); [left; congruence | right; eauto].
Qed.

(** X17.  In a start-up that returns, a parameter whose name is the path
    followed by a suffix has made [init] call [os.Setenv] with the
    upper-cased suffix alone as the name, and with its value: the path is
    cut off, and nothing else is, so that a separator after the path stays
    in the name.  Whether that call sets the variable is up to [os.Setenv],
    whose error [init] does not look at. *)
Theorem init_names_variables_after_the_path
  w path w1 parameters w2 w' tr suffix value :
  os_LookupEnv platform "SSM_PS_PATH" w = Some path ->
  session_NewSession platform w = (None, w1) ->
  ssm_GetParametersByPath platform path true w1 = (inr parameters, w2) ->
  init platform w = (Returned, w', tr) ->
  In (Some {| ssm.Name := Some (String.append path suffix);
              ssm.Value := Some value |}) parameters ->
  paramName platform path (String.append path suffix) =
    strings_ToUpper platform suffix /\
  In (strings_ToUpper platform suffix, value) (setenvs tr).
Proof.
  intros Hp Hs Hg Hrun Hin.
  assert (Hname : paramName platform path (String.append path suffix) =
                  strings_ToUpper platform suffix)
    by (unfold paramName; now rewrite TrimPrefix_append).
  split; [exact Hname|].
  unfold init in Hrun. rewrite Hp, Hs, Hg in Hrun.
  destruct (set_parameters_spec path parameters w2)
    as (r & t & E & Hv & Hr).
  rewrite E in Hrun. inversion Hrun; subst. simpl. rewrite Hv.
  destruct Hr as [[_ Hall] | [Hr _]]; [|discriminate].
  rewrite <- Hname.
  change (paramName platform path (String.append path suffix), value)
    with (rename platform path (String.append path suffix, value)).
  apply in_map. apply (readable_all _ Hall). eexists. split; [exact Hin|].
  reflexivity.
Qed.

End StartupProps.

(** ** More concrete runs *)

Module MoreRuns.

Import Sim Sim2.
Local Open Scope string_scope.
Local Open Scope list_scope.
Local Open Scope Z_scope.

Lemma nil_only_on_successful_receipt_witness :
  exists st' tr,
    waitForTx (backend 10 900000 false not_found_twice) libs background 7 3
      start = (Some None, st', tr) /\
    exists pre rc,
      tr = pre ++ [EvReceipt (now st') 7 (inr rc)] /\
      Status rc = ReceiptStatusSuccessful libs.
Proof.
  eexists _, _. split; [vm_compute; reflexivity|].
  edestruct (nil_only_on_successful_receipt
               (backend 10 900000 false not_found_twice) libs background 7 3
               start) as [H _]; [vm_compute; reflexivity|].
  exact (H eq_refl).
Defined.

Lemma polling_never_gives_up_witness :
  Commit (backend 10 900000 false never_found) = None /\
  done_at background = None /\
  exists st' tr,
    waitForTx (backend 10 900000 false never_found) libs background 7 25
      start = (None, st', tr) /\
    now st' = now start + 4 * Z.of_nat 25 /\
    List.length (receipt_queries tr) = 25%nat.
Proof.
  split; [reflexivity|]. split; [reflexivity|].
  exact (polling_never_gives_up
           (backend 10 900000 false never_found) libs background 7
           eq_refl eq_refl (fun w => eq_refl) 25%nat start).
Defined.

Lemma deadline_bounds_queries_witness :
  exists r st' tr,
    waitForTx (backend 10 900000 false never_found) libs (cancelled_at 6)
      7 5 start = (r, st', tr) /\
    List.length (receipt_queries tr) = 1%nat /\
    now start + 4 * Z.of_nat (List.length (receipt_queries tr)) <= 6.
Proof.
  eexists _, _, _. split; [vm_compute; reflexivity|].
  split; [vm_compute; reflexivity|].
  edestruct (deadline_bounds_queries
               (backend 10 900000 false never_found) libs (cancelled_at 6) 6
               7 5 start) as [H | H];
    [reflexivity | reflexivity | vm_compute; reflexivity | | exact H].
  vm_compute in H. discriminate H.
Defined.

Lemma wait_time_is_four_per_query_witness :
  exists r st' tr,
    waitForTx (backend 10 900000 false not_found_twice) libs background 7 3
      start = (r, st', tr) /\
    List.length (receipt_queries tr) = 3%nat /\
    now st' = now start + 4 * Z.of_nat (List.length (receipt_queries tr)).
Proof.
  eexists _, _, _. split; [vm_compute; reflexivity|].
  split; [vm_compute; reflexivity|].
  edestruct (wait_time_is_four_per_query
               (backend 10 900000 false not_found_twice) libs background 7 3
               start) as (_ & _ & H);
    [reflexivity | vm_compute; reflexivity |].
  apply H. intros t1 t2 Hin. vm_compute in Hin.
  repeat (destruct Hin as [Hin | Hin]; [discriminate Hin|]). exact Hin.
Defined.

Lemma expired_context_fails_at_once_witness :
  Commit (backend 10 900000 false always_ok) = None /\
  done_at (cancelled_at 0) = Some 0 /\
  0 <= now start /\
  (1 <= 1)%nat /\
  waitForTx (backend 10 900000 false always_ok) libs (cancelled_at 0) 7 1
    start =
    (Some (Some Canceled), {| world := O; now := 0 |}, [EvDone 0 0]).
Proof.
  split; [reflexivity|]. split; [reflexivity|].
  split; [vm_compute; discriminate|]. split; [apply le_n|].
  exact (expired_context_fails_at_once
           (backend 10 900000 false always_ok) libs (cancelled_at 0) 0 7 1
           start eq_refl eq_refl
           (fun H : (0 ?= 0) = Gt => eq_ind Eq
              (fun c => match c with Gt => False | _ => True end) I Gt H)
           (le_n 1)).
Defined.

Lemma submissions_follow_the_plan_witness :
  exists msg st' tr vaultKey processingKey,
    HandleEvent (backend 10 900000 false always_ok) libs background tick 1
      start = (Some (inr msg), st', tr) /\
    configs tr = [cfg] /\
    gas_prices tr = [10] /\
    balances tr = [900000] /\
    steps tr = plan libs cfg vaultKey processingKey 10 900000.
Proof.
  edestruct (submissions_follow_the_plan
               (backend 10 900000 false always_ok) libs background tick 1
               start)
    as (vaultKey & processingKey & _ & _ & _ & _ & H);
    [vm_compute; reflexivity | vm_compute; reflexivity
    | vm_compute; reflexivity | vm_compute; reflexivity |].
  eexists _, _, _, vaultKey, processingKey.
  split; [vm_compute; reflexivity|].
  split; [vm_compute; reflexivity|].
  split; [vm_compute; reflexivity|].
  split; [vm_compute; reflexivity|].
  exact (H _ eq_refl).
Defined.

Lemma transfers_never_exceed_the_balance_witness :
  exists r st' tr,
    HandleEvent (backend 10 900000 false always_ok) libs background tick 1
      start = (r, st', tr) /\
    gas_prices tr = [10] /\
    balances tr = [900000] /\
    0 <= 10 /\
    total_outlay (steps tr) <= 900000.
Proof.
  eexists _, _, _. split; [vm_compute; reflexivity|].
  split; [vm_compute; reflexivity|]. split; [vm_compute; reflexivity|].
  split; [vm_compute; discriminate|].
  edestruct (transfers_never_exceed_the_balance
               (backend 10 900000 false always_ok) libs background tick 1
               start) as [H | H];
    [vm_compute; reflexivity | vm_compute; reflexivity
    | vm_compute; reflexivity | vm_compute; discriminate | | exact H].
  vm_compute in H. discriminate H.
Defined.

Lemma undistributed_remainder_witness :
  exists r st' tr s1 s2 rest,
    HandleEvent (backend 10 900002 false always_ok) libs background tick 1
      start = (r, st', tr) /\
    gas_prices tr = [10] /\
    balances tr = [900002] /\
    steps tr = s1 :: s2 :: rest /\
    900002 - total_outlay (steps tr) = (900002 - gasLimit * 2 * 10) mod 3 /\
    (900002 - gasLimit * 2 * 10) mod 3 = 2.
Proof.
  eexists _, _, _, _, _, _. split; [vm_compute; reflexivity|].
  split; [vm_compute; reflexivity|]. split; [vm_compute; reflexivity|].
  split; [vm_compute; reflexivity|].
  split; [|vm_compute; reflexivity].
  edestruct (undistributed_remainder
               (backend 10 900002 false always_ok) libs background tick 1
               start) as (H & _);
    [vm_compute; reflexivity | vm_compute; reflexivity
    | vm_compute; reflexivity | vm_compute; reflexivity |].
  exact H.
Defined.

Lemma keys_are_checked_before_funds_move_witness :
  exists r st' tr,
    HandleEvent
      (with_config no_processing_key (backend 10 900000 false always_ok))
      libs background tick 1 start = (r, st', tr) /\
    configs tr = [no_processing_key] /\
    HexToECDSA libs (config.TokenHolderProcessingKey no_processing_key) =
      inl (ErrorString "invalid length") /\
    balance_queries tr = [] /\
    steps tr = [].
Proof.
  eexists _, _, _. split; [vm_compute; reflexivity|].
  split; [vm_compute; reflexivity|]. split; [vm_compute; reflexivity|].
  edestruct (keys_are_checked_before_funds_move
               (with_config no_processing_key
                  (backend 10 900000 false always_ok))
               libs background tick 1 start) as (H1 & H2 & _);
    [vm_compute; reflexivity | vm_compute; reflexivity
    | right; vm_compute; reflexivity |].
  split; [exact H1 | exact H2].
Defined.

Lemma error_names_its_cause_witness :
  exists err st' tr,
    HandleEvent (backend 10 900000 false reverted) libs background tick 1
      start = (Some (inl err), st', tr) /\
    has_failure (backend 10 900000 false reverted) libs tr = true /\
    exists pre e cause,
      tr = pre ++ [e] /\
      cause_of libs background e = Some cause /\
      ends_with (Error err) (Error cause).
Proof.
  eexists _, _, _. split; [vm_compute; reflexivity|].
  split; [vm_compute; reflexivity|].
  edestruct (error_names_its_cause
               (backend 10 900000 false reverted) libs background tick 1
               start) as (pre & e & H1 & _ & cause & H2 & H3);
    [vm_compute; reflexivity | vm_compute; reflexivity |].
  exists pre, e, cause. split; [exact H1|]. split; [exact H2 | exact H3].
Defined.

Lemma with_Commit_the_run_never_waits_witness :
  Commit (backend 10 900000 true always_ok) = Some (fun w => w) /\
  exists x st' tr,
    HandleEvent (backend 10 900000 true always_ok) libs background tick 0
      start = (Some x, st', tr) /\
    now st' = now start /\
    filter is_select tr = [] /\
    List.length (filter is_commit tr) = List.length (receipt_queries tr).
Proof.
  split; [reflexivity|].
  edestruct (with_Commit_the_run_never_waits
               (backend 10 900000 true always_ok) libs background tick 0
               start (fun w => w)) as ((x & _) & H2 & H3 & H4);
    [reflexivity | vm_compute; reflexivity |].
  eexists _, _, _. split; [vm_compute; reflexivity|].
  split; [exact H2|]. split; [exact H3 | exact H4].
Defined.

Lemma deadline_ends_the_run_witness :
  Commit (backend 10 900000 false never_found) = None /\
  done_at (cancelled_at 6) = Some 6 /\
  (1 <= 5)%nat /\
  6 < now start + 4 * Z.of_nat 5 /\
  exists x st' tr,
    HandleEvent (backend 10 900000 false never_found) libs (cancelled_at 6)
      tick 5 start = (Some x, st', tr) /\
    (forall t h a, In (EvReceipt t h a) tr -> t <= 6) /\
    now st' <= Z.max (now start) 6.
Proof.
  split; [reflexivity|]. split; [reflexivity|].
  split; [repeat constructor|]. split; [reflexivity|].
  apply (deadline_ends_the_run
           (backend 10 900000 false never_found) libs (cancelled_at 6) 6
           tick 5 start); [reflexivity | reflexivity | repeat constructor
                          | reflexivity].
Defined.

Lemma expired_context_never_succeeds_witness :
  Commit (backend 10 900000 false always_ok) = None /\
  done_at (cancelled_at 0) = Some 0 /\
  0 <= now start /\
  (1 <= 1)%nat /\
  exists r st' tr opts to,
    HandleEvent (backend 10 900000 false always_ok) libs (cancelled_at 0)
      tick 1 start = (r, st', tr) /\
    (exists err, r = Some (inl err)) /\
    receipt_queries tr = [] /\
    steps tr = [StepTransfer opts to] /\
    exists pre, tr = pre ++ [EvDone (now start) (now start)].
Proof.
  split; [reflexivity|]. split; [reflexivity|].
  split; [vm_compute; discriminate|]. split; [apply le_n|].
  edestruct (expired_context_never_succeeds
               (backend 10 900000 false always_ok) libs (cancelled_at 0) 0
               tick 1 start) as (H1 & H2 & _ & _ & H5);
    [reflexivity | reflexivity | vm_compute; discriminate | apply le_n
    | vm_compute; reflexivity |].
  eexists _, _, _, _, _. split; [vm_compute; reflexivity|].
  split; [exact H1|]. split; [exact H2|].
  split; [vm_compute; reflexivity|].
  edestruct H5 as [(pre & err & E) | Hdone]; [vm_compute; reflexivity | |].
  - exfalso. vm_compute in E.
    destruct pre as [|? [|? [|? [|? [|? [|? [|? pre]]]]]]];
      discriminate E.
  - exact Hdone.
Defined.

Lemma success_by_polling_takes_16_witness :
  Commit (backend 10 900000 false always_ok) = None /\
  exists msg st' tr,
    HandleEvent (backend 10 900000 false always_ok) libs background tick 1
      start = (Some (inr msg), st', tr) /\
    now st' = now start + 4 * Z.of_nat (List.length (receipt_queries tr)) /\
    now start + 16 <= now st'.
Proof.
  split; [reflexivity|].
  edestruct (success_by_polling_takes_16
               (backend 10 900000 false always_ok) libs background tick 1
               start) as (H1 & _ & H3);
    [reflexivity | vm_compute; reflexivity |].
  eexists _, _, _. split; [vm_compute; reflexivity|].
  split; [exact H1 | exact H3].
Defined.

Lemma init_exits_only_on_failure_witness :
  init (platform (Some (ErrorString "no credentials")) (inr two_parameters))
    [] = (Returned, [], []) /\
  exists w' tr,
    init (platform (Some (ErrorString "no credentials"))
            (inr two_parameters)) with_path = (Exited 1, w', tr).
Proof.
  destruct (init_exits_only_on_failure
              (platform (Some (ErrorString "no credentials"))
                 (inr two_parameters)) []) as (H1 & _ & _).
  destruct (init_exits_only_on_failure
              (platform (Some (ErrorString "no credentials"))
                 (inr two_parameters)) with_path) as (_ & _ & H3).
  split; [exact (H1 eq_refl)|].
  apply (H3 "/app/prod"); [reflexivity|].
  left. exists (ErrorString "no credentials"). reflexivity.
Defined.

Lemma init_sets_the_readable_parameters_witness :
  exists tr,
    init (platform None (inr two_parameters)) with_path =
      (Returned,
       [("/DEQODE_ADDRESS", "0x01"); ("/ETHEREUM_URL", "http://node:8545");
        ("SSM_PS_PATH", "/app/prod")], tr) /\
    setenvs tr =
      [("/ETHEREUM_URL", "http://node:8545"); ("/DEQODE_ADDRESS", "0x01")].
Proof.
  destruct (init_sets_the_readable_parameters
              (platform None (inr two_parameters)) with_path "/app/prod"
              with_path two_parameters with_path eq_refl eq_refl eq_refl)
    as (r & tr & Hrun & Hset & Hr).
  exists tr. split; [|exact Hset].
  rewrite Hrun. f_equal. f_equal.
  destruct Hr as [[Hr _] | [_ Hex]]; [exact Hr|].
  exfalso. vm_compute in Hex.
  inversion Hex as [? ? H | ? ? H]; [discriminate H|].
  inversion H as [? ? H' | ? ? H']; [discriminate H' | inversion H'].
Defined.

Lemma init_names_variables_after_the_path_witness :
  exists w' tr,
    init (platform None (inr two_parameters)) with_path =
      (Returned, w', tr) /\
    In (ToUpper "/ethereum_url", "http://node:8545") (setenvs tr).
Proof.
  eexists _, _. split; [vm_compute; reflexivity|].
  edestruct (init_names_variables_after_the_path
               (platform None (inr two_parameters)) with_path "/app/prod"
               with_path two_parameters with_path) as (_ & H);
    [reflexivity | reflexivity | reflexivity | vm_compute; reflexivity
    | left; reflexivity |].
  exact H.
Defined.

End MoreRuns.
